(** * generate_large_csv.py: a shallow embedding and its properties

    The script writes a CSV file of [num_rows] data rows and [num_cols]
    columns through Python's [csv.writer], prints a success message, and
    then writes a marker file next to the CSV file.

    The two configuration literals [num_rows] and [num_cols] are the
    parameters of the embedding; Python's [int] is [Z], [str] is [string],
    the file system is a finite map from paths to contents, and every I/O
    primitive may raise, as decided by a fault schedule. *)

From Stdlib Require Import ZArith List Ascii String DecimalString Lia Bool.
From Stdlib Require DecimalZ DecimalPos.
From stdpp Require Import base gmap strings.
Import ListNotations.
Local Open Scope Z_scope.

(* String concatenation unfolds on a constructor, as list append does. *)
#[local] Arguments String.append !s1 s2 / : simpl nomatch.
#[local] Arguments Ascii.eqb : simpl never.

(** ** Characters and strings *)

Definition LF : ascii := "010"%char.
Definition CR : ascii := "013"%char.
Definition COMMA : ascii := ","%char.
Definition DQUOTE : ascii := "034"%char.

Definition chr (c : ascii) : string := String c EmptyString.

Definition CRLF : string := String CR (String LF EmptyString).

(** [c in s], on characters. *)
Fixpoint contains (c : ascii) (s : string) : bool :=
  match s with
  | EmptyString => false
  | String d s' => Ascii.eqb d c || contains c s'
  end.

(** [str(z)] / the [{z}] of an f-string, for a Python [int]. *)
Definition str (z : Z) : string := NilZero.string_of_int (Z.to_int z).

(** [range(lo, hi)] as the list it iterates over. *)
Definition py_range (lo hi : Z) : list Z :=
  map (fun k => lo + Z.of_nat k) (seq 0 (Z.to_nat (hi - lo))).

(** ** The platform *)

Inductive platform := Posix | Windows.

(** [os.linesep] *)
Definition linesep (p : platform) : string :=
  match p with
  | Posix => chr LF
  | Windows => CRLF
  end.

(** ** csv.writer, default ("excel") dialect

    The delimiter is the comma, the quote character the double quote,
    [doublequote = True],
    [quoting = QUOTE_MINIMAL], [lineterminator = '\r\n']. *)
Module Csv.

Definition delimiter : ascii := COMMA.
Definition quotechar : ascii := DQUOTE.
Definition lineterminator : string := CRLF.

(** A character that forces the field to be quoted. *)
Definition is_special (c : ascii) : bool :=
  Ascii.eqb c delimiter || Ascii.eqb c quotechar || contains c lineterminator.

Fixpoint needs_quoting (field : string) : bool :=
  match field with
  | EmptyString => false
  | String c s => is_special c || needs_quoting s
  end.

(** Copy the field, doubling every quote character. *)
Fixpoint escape (field : string) : string :=
  match field with
  | EmptyString => EmptyString
  | String c s =>
      if Ascii.eqb c quotechar
      then String quotechar (String quotechar (escape s))
      else String c (escape s)
  end.

Definition render_field (field : string) : string :=
  if needs_quoting field
  then String quotechar (escape field +:+ chr quotechar)
  else field.

(** The record for one row, without its terminator.  A row made of one
    empty field is written as a pair of quotes. *)
Definition join_row (row : list string) : string :=
  match row with
  | [EmptyString] => String quotechar (chr quotechar)
  | _ => String.concat (chr delimiter) (map render_field row)
  end.

(** What [writer.writerow(row)] hands to the file's [write]. *)
Definition format_row (row : list string) : string :=
  join_row row +:+ lineterminator.

End Csv.

(** ** The values the script computes *)

Section Config.

Variables num_rows num_cols : Z.

(** [output_file = f'{num_rows}_large_test.csv'] *)
Definition output_file : string := str num_rows +:+ "_large_test.csv".

(** [columns = [f'col{i+1}' for i in range(num_cols)]] *)
Definition columns : list string :=
  map (fun i => "col" +:+ str (i + 1)) (py_range 0 num_cols).

(** [row = [f'data_{col}_{row_num}' for col in range(1, num_cols + 1)]] *)
Definition row (row_num : Z) : list string :=
  map (fun col => "data_" +:+ str col +:+ "_" +:+ str row_num)
      (py_range 1 (num_cols + 1)).

(** [f'{output_file}.done'] *)
Definition done_file : string := output_file +:+ ".done".

(** The printed f-string. *)
Definition success_message : string :=
  "CSV file " +:+ chr DQUOTE +:+ output_file +:+ chr DQUOTE +:+ " with "
    +:+ str num_rows +:+ " rows and " +:+ str num_cols
    +:+ " columns generated successfully.".

(** ['CSV generation completed.\n'] *)
Definition done_text : string := "CSV generation completed." +:+ chr LF.

End Config.

(** ** The I/O model

    The world the script runs in: the files on disk, what has been printed,
    the log of the I/O operations that took effect, and a counter of the
    I/O primitives attempted so far.  The primitive number [n] of a run
    raises [OSError] exactly when the fault schedule says so. *)

Inductive event :=
| EvOpen (path : string)
| EvWrite (path data : string)
| EvClose (path : string)
| EvPrint (text : string).

Record world := World {
  fs : gmap string string;
  stdout : string;
  trace : list event;
  clock : nat
}.

Definition init_world (disk : gmap string string) : world :=
  {| fs := disk; stdout := EmptyString; trace := []; clock := 0 |}.

Inductive result (A : Type) :=
| Ok (a : A)
| Raise.

Arguments Ok {A} a.
Arguments Raise {A}.

(** A text file object opened for writing, with its [newline] argument. *)
Record file := File {
  f_path : string;
  f_newline : option string
}.

Definition io (A : Type) : Type := world -> result A * world.

#[export] Instance io_ret : MRet io := fun A a w => (Ok a, w).

#[export] Instance io_bind : MBind io := fun A B k c w =>
  match c w with
  | (Ok a, w') => k a w'
  | (Raise, w') => (Raise, w')
  end.

(** [for x in xs: body(x)] *)
Fixpoint for_each {A : Type} (xs : list A) (body : A -> io unit) : io unit :=
  match xs with
  | [] => mret tt
  | x :: xs' => body x ;; for_each xs' body
  end.

(** Replace every ['\n'] of [s] by [nl]. *)
Fixpoint translate (nl s : string) : string :=
  match s with
  | EmptyString => EmptyString
  | String c s' =>
      if Ascii.eqb c LF then nl +:+ translate nl s'
      else String c (translate nl s')
  end.

(** [try: c finally: cleanup]: the cleanup runs on both exits, and an
    exception of either one propagates. *)
Definition try_finally {A : Type} (c : io A) (cleanup : io unit) : io A :=
  fun w =>
    match c w with
    | (Ok a, w1) =>
        match cleanup w1 with
        | (Ok _, w2) => (Ok a, w2)
        | (Raise, w2) => (Raise, w2)
        end
    | (Raise, w1) => (Raise, snd (cleanup w1))
    end.

Section IO.

Variable os : platform.
Variable faults : nat -> bool.

(** Text-mode output: with [newline=None] every ['\n'] becomes
    [os.linesep]; with [newline=''] or ['\n'] nothing is translated;
    any other value replaces ['\n']. *)
Definition encode_newlines (newline : option string) (s : string) : string :=
  match newline with
  | None => translate (linesep os) s
  | Some nl =>
      if String.eqb nl EmptyString || String.eqb nl (chr LF) then s
      else translate nl s
  end.

(** One I/O primitive: it raises when scheduled to, and otherwise takes
    effect and is logged. *)
Definition syscall {A : Type} (a : A) (ev : event)
    (effect : world -> world) : io A :=
  fun w =>
    let w1 := {| fs := fs w; stdout := stdout w; trace := trace w;
                 clock := S (clock w) |} in
    if faults (clock w) then (Raise, w1)
    else
      let w2 := effect w1 in
      (Ok a, {| fs := fs w2; stdout := stdout w2;
                trace := trace w2 ++ [ev]; clock := clock w2 |}).

Definition set_fs (f : gmap string string -> gmap string string)
    (w : world) : world :=
  {| fs := f (fs w); stdout := stdout w; trace := trace w;
     clock := clock w |}.

(** [open(path, 'w', newline=...)]: creates or truncates the file.  All the
    text the script writes is ASCII, on which the encoding is the identity;
    writes are taken to reach the disk as they are made. *)
Definition open_w (path : string) (newline : option string) : io file :=
  syscall (File path newline) (EvOpen path)
          (set_fs (fun d => <[path := EmptyString]> d)).

(** [f.write(s)] *)
Definition write (f : file) (s : string) : io unit :=
  let data := encode_newlines (f_newline f) s in
  syscall tt (EvWrite (f_path f) data)
          (set_fs (fun d =>
             <[f_path f := default EmptyString (d !! f_path f) +:+ data]> d)).

(** [f.close()] *)
Definition close (f : file) : io unit :=
  syscall tt (EvClose (f_path f)) (fun w => w).

(** [print(s)] *)
Definition print (s : string) : io unit :=
  syscall tt (EvPrint s)
          (fun w =>
             {| fs := fs w;
                stdout := stdout w +:+ encode_newlines None (s +:+ chr LF);
                trace := trace w; clock := clock w |}).

(** [with open(path, 'w', newline=...) as f: body(f)]: the file is closed
    when the body ends, also when the body raises. *)
Definition with_open {A : Type} (path : string) (newline : option string)
    (body : file -> io A) : io A :=
  f ← open_w path newline;
  try_finally (body f) (close f).

(** [writer.writerow(row)] for [writer = csv.writer(f)] *)
Definition writerow (f : file) (r : list string) : io unit :=
  write f (Csv.format_row r).

(** ** The script *)

Variables num_rows num_cols : Z.

(** Lines 10-15. *)
Definition generate_csv : io unit :=
  with_open (output_file num_rows) (Some EmptyString) (fun csvfile =>
    writerow csvfile (columns num_cols) ;;
    for_each (py_range 1 (num_rows + 1)) (fun row_num =>
      writerow csvfile (row num_cols row_num))).

(** Lines 20-21. *)
Definition generate_marker : io unit :=
  with_open (done_file num_rows) None (fun donefile =>
    write donefile done_text).

(** The whole module body. *)
Definition main : io unit :=
  generate_csv ;;
  print (success_message num_rows num_cols) ;;
  generate_marker.

End IO.

(** A run of the script on a disk, from a fresh process. *)
Definition run (os : platform) (faults : nat -> bool) (num_rows num_cols : Z)
    (disk : gmap string string) : result unit * world :=
  main os faults num_rows num_cols (init_world disk).

(** The schedule in which nothing raises. *)
Definition no_faults : nat -> bool := fun _ => false.

(** The schedule in which only primitive number [n] raises. *)
Definition fault_at (n : nat) : nat -> bool := fun k => Nat.eqb k n.

(** ** Reading the files back *)

(** The lines of a text, each of ['\n'], ['\r\n'] and ['\r'] ending one
    line, as [str.splitlines] cuts them. *)
Fixpoint splitlines (s : string) : list string :=
  match s with
  | EmptyString => []
  | String c rest =>
      if Ascii.eqb c LF then EmptyString :: splitlines rest
      else if Ascii.eqb c CR then
        match rest with
        | String d rest' =>
            if Ascii.eqb d LF then EmptyString :: splitlines rest'
            else EmptyString :: splitlines rest
        | EmptyString => [EmptyString]
        end
      else
        match splitlines rest with
        | [] => [chr c]
        | l :: ls => String c l :: ls
        end
  end.

(** [line.split(',')] *)
Fixpoint split_commas (line : string) : list string :=
  match line with
  | EmptyString => [EmptyString]
  | String c rest =>
      if Ascii.eqb c COMMA then EmptyString :: split_commas rest
      else
        match split_commas rest with
        | [] => [chr c]
        | f :: fs => String c f :: fs
        end
  end.

(** The fields of a line that holds no quote character: the empty line has
    none, any other line has its comma-separated parts. *)
Definition fields (line : string) : list string :=
  match line with
  | EmptyString => []
  | _ => split_commas line
  end.

(** Concatenation of a list of strings. *)
Definition join_all (parts : list string) : string :=
  fold_right String.append EmptyString parts.

(** ** The expected outcome of a run, in closed form *)

Section Expected.

Variable os : platform.
Variables num_rows num_cols : Z.

(** The records of the CSV file, without their terminators. *)
Definition csv_records : list string :=
  Csv.join_row (columns num_cols)
    :: map (fun r => Csv.join_row (row num_cols r))
           (py_range 1 (num_rows + 1)).

Definition csv_text : string :=
  join_all (map (fun l => l +:+ CRLF) csv_records).

Definition marker_text : string :=
  "CSV generation completed." +:+ linesep os.

(** The I/O operations of the block that writes the CSV file. *)
Definition csv_events : list event :=
  EvOpen (output_file num_rows)
    :: map (fun l => EvWrite (output_file num_rows) (l +:+ CRLF)) csv_records
    ++ [EvClose (output_file num_rows)].

(** The number of I/O primitives of that block: the open, one write per
    record, the close.  The print is primitive number [csv_ops] of a run and
    the open of the marker file primitive number [csv_ops + 1]. *)
Definition csv_ops : nat := length csv_records + 2.

Definition marker_events : list event :=
  [EvOpen (done_file num_rows);
   EvWrite (done_file num_rows) marker_text;
   EvClose (done_file num_rows)].

End Expected.

(** The marker file was created during the run that ended in [w]. *)
Definition marker_created (num_rows : Z) (w : world) : Prop :=
  In (EvOpen (done_file num_rows)) (trace w).

(** The event [e] concerns the file [path]. *)
Definition on_path (path : string) (e : event) : Prop :=
  match e with
  | EvOpen q | EvClose q | EvWrite q _ => q = path
  | EvPrint _ => False
  end.

Definition is_print (e : event) : bool :=
  match e with
  | EvPrint _ => true
  | _ => false
  end.

Definition touches_file (path : string) (e : event) : bool :=
  match e with
  | EvOpen q | EvClose q | EvWrite q _ => String.eqb q path
  | EvPrint _ => false
  end.

(** Some event satisfying [a] is logged strictly before some event
    satisfying [b]. *)
Fixpoint occurs_before (a b : event -> bool) (log : list event) : bool :=
  match log with
  | [] => false
  | e :: rest => (a e && existsb b rest) || occurs_before a b rest
  end.

(** The reading of the order "marker file, then message": an operation on
    the marker file is logged before the print, and none after it. *)
Definition marker_before_print (num_rows : Z) (log : list event) : Prop :=
  occurs_before (touches_file (done_file num_rows)) is_print log = true /\
  occurs_before is_print (touches_file (done_file num_rows)) log = false.

(** The order the other way round. *)
Definition print_before_marker (num_rows : Z) (log : list event) : Prop :=
  occurs_before is_print (touches_file (done_file num_rows)) log = true /\
  occurs_before (touches_file (done_file num_rows)) is_print log = false.

(** Every line of the text, as [splitlines] cuts it, ends in [term]. *)
Definition terminated_with (term text : string) : Prop :=
  text = join_all (map (fun l => l +:+ term) (splitlines text)).

(** A string without comma, double quote, carriage return and line feed. *)
Definition free_of_specials (f : string) : Prop :=
  contains COMMA f = false /\ contains DQUOTE f = false /\
  contains CR f = false /\ contains LF f = false.

(** A field that the writer copies unchanged, and that is not empty. *)
Definition plain (f : string) : Prop :=
  Csv.needs_quoting f = false /\ f <> EmptyString.

(** ** A logic of runs under a fault schedule

    [triple c w n path Q]: started in [w], the computation [c] attempts at
    most [n] primitives, all of them on the file [path]; it returns
    normally exactly when none of those [n] is scheduled to raise, and then
    [Q] holds of its result and final world. *)

Section Triples.

Variable faults : nat -> bool.

Definition quiet (t n : nat) : Prop :=
  forall k, (k < n)%nat -> faults (t + k)%nat = false.

Definition touches (path : string) (w w' : world) : Prop :=
  stdout w' = stdout w /\
  (forall q, q <> path -> fs w' !! q = fs w !! q) /\
  exists evs, trace w' = trace w ++ evs /\ Forall (on_path path) evs.

Definition triple {A : Type} (c : io A) (w : world) (n : nat)
    (path : string) (Q : A -> world -> Prop) : Prop :=
  match c w with
  | (Ok a, w') =>
      quiet (clock w) n /\ clock w' = (clock w + n)%nat /\
      touches path w w' /\ Q a w'
  | (Raise, w') => ~ quiet (clock w) n /\ touches path w w'
  end.

End Triples.

(** ** Facts about strings *)

Lemma append_nil_r (s : string) : s +:+ EmptyString = s.
Proof. induction s as [|c s IH]; simpl; [reflexivity | now rewrite IH]. Qed.

Lemma append_assoc (a b c : string) : (a +:+ b) +:+ c = a +:+ (b +:+ c).
Proof. induction a as [|x a IH]; simpl; [reflexivity | now rewrite IH]. Qed.

Lemma append_self_inv (s t : string) : s = s +:+ t -> t = EmptyString.
Proof.
  induction s as [|c s IH]; simpl; intros H.
  - now symmetry.
  - injection H as H. now apply IH.
Qed.

Lemma output_file_not_done_file (R : Z) : output_file R <> done_file R.
Proof.
  unfold done_file. intros H. apply append_self_inv in H. discriminate H.
Qed.

Lemma contains_app (c : ascii) (a b : string) :
  contains c (a +:+ b) = contains c a || contains c b.
Proof.
  induction a as [|x a IH]; simpl; [reflexivity|].
  rewrite IH. now rewrite orb_assoc.
Qed.

Lemma needs_quoting_app (a b : string) :
  Csv.needs_quoting (a +:+ b) = Csv.needs_quoting a || Csv.needs_quoting b.
Proof.
  induction a as [|x a IH]; simpl; [reflexivity|].
  rewrite IH. now rewrite orb_assoc.
Qed.

(** A field needs quoting exactly when it holds a comma, a quote, a
    carriage return or a line feed. *)
Lemma needs_quoting_contains (s : string) :
  Csv.needs_quoting s =
  contains COMMA s || contains DQUOTE s || contains CR s || contains LF s.
Proof.
  induction s as [|c s IH]; simpl; [reflexivity|].
  rewrite IH. unfold Csv.is_special, Csv.delimiter, Csv.quotechar,
    Csv.lineterminator, CRLF. simpl.
  rewrite (Ascii.eqb_sym CR c), (Ascii.eqb_sym LF c), orb_false_r.
  destruct (Ascii.eqb c COMMA), (Ascii.eqb c DQUOTE), (Ascii.eqb c CR),
    (Ascii.eqb c LF), (contains COMMA s), (contains DQUOTE s),
    (contains CR s), (contains LF s); reflexivity.
Qed.

Lemma plain_no_char (s : string) :
  Csv.needs_quoting s = false ->
  contains COMMA s = false /\ contains DQUOTE s = false /\
  contains CR s = false /\ contains LF s = false.
Proof.
  rewrite needs_quoting_contains. intros H.
  repeat (apply orb_false_elim in H; destruct H as [H ?]). auto.
Qed.

(** Decimal numerals are made of digits and a sign. *)
Lemma uint_plain (u : Decimal.uint) :
  Csv.needs_quoting (NilEmpty.string_of_uint u) = false.
Proof. induction u; simpl; auto. Qed.

Lemma str_plain (z : Z) : Csv.needs_quoting (str z) = false.
Proof.
  unfold str, NilZero.string_of_int, NilZero.string_of_uint.
  destruct (Z.to_int z) as [u|u]; destruct u; simpl;
    try reflexivity; apply uint_plain.
Qed.

(** ** Facts about [range] *)

Lemma py_range_length (lo hi : Z) :
  length (py_range lo hi) = Z.to_nat (hi - lo).
Proof. unfold py_range. now rewrite length_map, length_seq. Qed.

Lemma py_range_nth (lo hi d : Z) (k : nat) :
  (k < Z.to_nat (hi - lo))%nat ->
  nth k (py_range lo hi) d = lo + Z.of_nat k.
Proof.
  intros Hk. unfold py_range.
  rewrite (nth_indep _ d (lo + Z.of_nat 0)) by now rewrite length_map, length_seq.
  rewrite (map_nth (fun k => lo + Z.of_nat k)), seq_nth by assumption.
  reflexivity.
Qed.

(** ** Fields that the writer copies unchanged *)

Lemma label_plain (z : Z) : plain ("col" +:+ str z).
Proof.
  split; [|discriminate].
  rewrite needs_quoting_app, str_plain. reflexivity.
Qed.

Lemma cell_plain (c r : Z) : plain ("data_" +:+ str c +:+ "_" +:+ str r).
Proof.
  split; [|discriminate].
  rewrite !needs_quoting_app, !str_plain. reflexivity.
Qed.

Lemma columns_plain (C : Z) : Forall plain (columns C).
Proof.
  unfold columns. apply Forall_map, Forall_forall. intros i _.
  apply label_plain.
Qed.

Lemma row_plain (C r : Z) : Forall plain (row C r).
Proof.
  unfold row. apply Forall_map, Forall_forall. intros c _.
  apply cell_plain.
Qed.

Lemma render_plain (fs : list string) :
  Forall plain fs -> map Csv.render_field fs = fs.
Proof.
  induction 1 as [|f fs [Hq _] _ IH]; simpl; [reflexivity|].
  unfold Csv.render_field at 1. now rewrite Hq, IH.
Qed.

(** The writer applies no quoting to a row of plain fields. *)
Lemma join_row_plain (fs : list string) :
  Forall plain fs -> Csv.join_row fs = String.concat (chr COMMA) fs.
Proof.
  intros H. unfold Csv.join_row.
  rewrite (render_plain fs H).
  destruct H as [|f fs [_ Hne] Hfs]; [reflexivity|].
  destruct f; [now contradiction Hne|]. reflexivity.
Qed.

Lemma concat_no_char (c : ascii) (sep : string) (fs : list string) :
  contains c sep = false ->
  Forall (fun f => contains c f = false) fs ->
  contains c (String.concat sep fs) = false.
Proof.
  intros Hsep. induction 1 as [|f fs Hf Hfs IH]; [reflexivity|].
  destruct fs as [|g fs]; [exact Hf|].
  change (String.concat sep (f :: g :: fs))
    with (f +:+ sep +:+ String.concat sep (g :: fs)).
  now rewrite !contains_app, Hf, Hsep, IH.
Qed.

Lemma plain_Forall_no_char (c : ascii) (fs : list string) :
  c = DQUOTE \/ c = CR \/ c = LF ->
  Forall plain fs -> Forall (fun f => contains c f = false) fs.
Proof.
  intros Hc H. eapply List.Forall_impl; [|exact H].
  intros f [Hq _]. apply plain_no_char in Hq.
  destruct Hq as (_ & ? & ? & ?).
  destruct Hc as [->|[->| ->]]; assumption.
Qed.

Lemma join_row_no_char (c : ascii) (fs : list string) :
  c = DQUOTE \/ c = CR \/ c = LF ->
  Forall plain fs -> contains c (Csv.join_row fs) = false.
Proof.
  intros Hc H. rewrite (join_row_plain fs H).
  apply concat_no_char; [|now apply plain_Forall_no_char].
  destruct Hc as [->|[->| ->]]; reflexivity.
Qed.

(** ** Splitting inverts joining *)


Lemma split_commas_field (f rest : string) :
  contains COMMA f = false ->
  split_commas (f +:+ String COMMA rest) = f :: split_commas rest.
Proof.
  induction f as [|c f IH]; simpl; intros H.
  - reflexivity.
  - apply orb_false_elim in H. destruct H as [Hc Hf].
    rewrite Hc, (IH Hf). reflexivity.
Qed.

Lemma split_commas_single (f : string) :
  contains COMMA f = false -> split_commas f = [f].
Proof.
  induction f as [|c f IH]; simpl; intros H; [reflexivity|].
  apply orb_false_elim in H. destruct H as [Hc Hf].
  now rewrite Hc, (IH Hf).
Qed.

Lemma split_commas_concat (f : string) (fs : list string) :
  Forall (fun g => contains COMMA g = false) (f :: fs) ->
  split_commas (String.concat (chr COMMA) (f :: fs)) = f :: fs.
Proof.
  revert f. induction fs as [|g fs IH]; intros f H.
  - apply split_commas_single. now inversion H.
  - change (String.concat (chr COMMA) (f :: g :: fs))
      with (f +:+ String COMMA (String.concat (chr COMMA) (g :: fs))).
    inversion H as [|? ? Hf Hrest]; subst.
    rewrite (split_commas_field _ _ Hf), (IH g Hrest). reflexivity.
Qed.

Lemma concat_plain_nonempty (f : string) (fs : list string) :
  f <> EmptyString -> String.concat (chr COMMA) (f :: fs) <> EmptyString.
Proof.
  intros Hf. destruct f as [|c f]; [now contradiction Hf|].
  destruct fs; discriminate.
Qed.

(** Reading a written row gives the row back. *)
Lemma fields_join_row (fs : list string) :
  Forall plain fs -> fields (Csv.join_row fs) = fs.
Proof.
  intros H. rewrite (join_row_plain fs H).
  destruct fs as [|f fs]; [reflexivity|].
  assert (Hc : Forall (fun g => contains COMMA g = false) (f :: fs)).
  { eapply List.Forall_impl; [|exact H]. intros g [Hq _].
    now apply plain_no_char in Hq. }
  unfold fields.
  destruct (String.concat (chr COMMA) (f :: fs)) eqn:E.
  - exfalso. revert E. apply concat_plain_nonempty.
    inversion H as [|? ? [_ Hne] _]. exact Hne.
  - rewrite <- E. now apply split_commas_concat.
Qed.

Lemma splitlines_line (l rest : string) :
  contains CR l = false -> contains LF l = false ->
  splitlines (l +:+ CRLF +:+ rest) = l :: splitlines rest.
Proof.
  induction l as [|c l IH]; intros Hcr Hlf.
  - reflexivity.
  - simpl in Hcr, Hlf.
    apply orb_false_elim in Hcr. destruct Hcr as [Hc1 Hcr].
    apply orb_false_elim in Hlf. destruct Hlf as [Hc2 Hlf].
    change (splitlines (String c (l +:+ CRLF +:+ rest)) = String c l :: splitlines rest).
    cbn [splitlines]. rewrite Hc1, Hc2, (IH Hcr Hlf). reflexivity.
Qed.

Lemma splitlines_join_all (ls : list string) :
  Forall (fun l => contains CR l = false /\ contains LF l = false) ls ->
  splitlines (join_all (map (fun l => l +:+ CRLF) ls)) = ls.
Proof.
  induction 1 as [|l ls [Hcr Hlf] _ IH]; [reflexivity|].
  cbn [map join_all fold_right]. rewrite append_assoc.
  rewrite (splitlines_line _ _ Hcr Hlf). f_equal. exact IH.
Qed.

Lemma contains_join_all (c : ascii) (parts : list string) :
  Forall (fun s => contains c s = false) parts ->
  contains c (join_all parts) = false.
Proof.
  induction 1 as [|s parts Hs _ IH]; [reflexivity|].
  cbn [join_all fold_right]. rewrite contains_app, Hs. exact IH.
Qed.

(** ** The text of the CSV file *)

Lemma csv_records_plain (R C : Z) :
  Forall (fun l => contains CR l = false /\ contains LF l = false)
         (csv_records R C).
Proof.
  unfold csv_records. constructor.
  - split; apply join_row_no_char; auto using columns_plain.
  - apply Forall_map, Forall_forall. intros r _.
    split; apply join_row_no_char; auto using row_plain.
Qed.

Lemma splitlines_csv_text (R C : Z) :
  splitlines (csv_text R C) = csv_records R C.
Proof. apply splitlines_join_all, csv_records_plain. Qed.

Lemma csv_records_length (R C : Z) :
  length (csv_records R C) = S (Z.to_nat R).
Proof.
  unfold csv_records. cbn [length].
  rewrite length_map, py_range_length. f_equal. f_equal. lia.
Qed.

Lemma csv_text_no_quote (R C : Z) : contains DQUOTE (csv_text R C) = false.
Proof.
  unfold csv_text. apply contains_join_all, Forall_map.
  unfold csv_records. constructor.
  - rewrite contains_app, join_row_no_char; auto using columns_plain.
  - apply Forall_map, Forall_forall. intros r _.
    rewrite contains_app, join_row_no_char; auto using row_plain.
Qed.

Lemma marker_text_encoded (os : platform) :
  encode_newlines os None done_text = marker_text os.
Proof. destruct os; reflexivity. Qed.

(** ** Rules of the logic of runs *)

Section Logic.

Variable faults : nat -> bool.

Lemma quiet_one (t : nat) : quiet faults t 1 <-> faults t = false.
Proof.
  unfold quiet. split.
  - intros H. rewrite <- (Nat.add_0_r t). apply H. lia.
  - intros H k Hk. replace (t + k)%nat with t by lia. exact H.
Qed.

Lemma quiet_add (t n m : nat) :
  quiet faults t (n + m) <-> quiet faults t n /\ quiet faults (t + n) m.
Proof.
  unfold quiet. split.
  - intros H. split; intros k Hk.
    + apply H. lia.
    + rewrite <- Nat.add_assoc. apply H. lia.
  - intros [H1 H2] k Hk.
    destruct (Nat.lt_ge_cases k n) as [Hlt|Hge]; [now apply H1|].
    replace (t + k)%nat with (t + n + (k - n))%nat by lia.
    apply H2. lia.
Qed.

Lemma touches_refl (path : string) (w : world) : touches path w w.
Proof.
  repeat split; auto. exists []. now rewrite app_nil_r.
Qed.

Lemma touches_trans (path : string) (w1 w2 w3 : world) :
  touches path w1 w2 -> touches path w2 w3 -> touches path w1 w3.
Proof.
  intros (Ho1 & Hf1 & e1 & Ht1 & He1) (Ho2 & Hf2 & e2 & Ht2 & He2).
  split; [congruence|]. split.
  - intros q Hq. now rewrite Hf2, Hf1.
  - exists (e1 ++ e2). split.
    + now rewrite Ht2, Ht1, <- app_assoc.
    + now apply Forall_app.
Qed.

(** Whatever the schedule, a primitive on [path] only touches [path]. *)
Lemma syscall_touches {A : Type} (a : A) (ev : event)
    (effect : world -> world) (path : string) (w : world) :
  on_path path ev ->
  (forall v, touches path v (effect v) /\ clock (effect v) = clock v) ->
  touches path w (snd (syscall faults a ev effect w)).
Proof.
  intros Hev Heff. unfold syscall.
  destruct (faults (clock w)); cbn [snd].
  - repeat split; auto. exists []. now rewrite app_nil_r.
  - match goal with |- context [effect ?v] =>
      destruct (Heff v) as [(Ho & Hf & evs & Ht & He) _] end.
    cbn [fs stdout trace clock] in *.
    split; [exact Ho|]. split; [exact Hf|].
    exists (evs ++ [ev]). split.
    + now rewrite Ht, <- app_assoc.
    + apply Forall_app. split; [exact He|]. now constructor.
Qed.

Lemma triple_syscall {A : Type} (a : A) (ev : event)
    (effect : world -> world) (path : string) (w : world)
    (Q : A -> world -> Prop) :
  on_path path ev ->
  (forall v, touches path v (effect v) /\ clock (effect v) = clock v) ->
  (forall w', syscall faults a ev effect w = (Ok a, w') -> Q a w') ->
  triple faults (syscall faults a ev effect) w 1 path Q.
Proof.
  intros Hev Heff HQ. unfold triple.
  pose proof (syscall_touches a ev effect path w Hev Heff) as Ht.
  destruct (syscall faults a ev effect w) as [[b|] w'] eqn:E.
  - assert (Hq : faults (clock w) = false /\ b = a /\
                 clock w' = S (clock w)).
    { unfold syscall in E. destruct (faults (clock w)); [discriminate|].
      injection E as <- <-. cbn [clock].
      destruct (Heff {| fs := fs w; stdout := stdout w; trace := trace w;
                        clock := S (clock w) |}) as [_ Hc].
      rewrite Hc. auto. }
    destruct Hq as (Hf & -> & Hc).
    split; [now apply quiet_one|]. split; [lia|].
    split; [exact Ht|]. now apply HQ.
  - split; [|exact Ht]. rewrite quiet_one.
    unfold syscall in E. destruct (faults (clock w)); [discriminate|].
    discriminate E.
Qed.

Lemma triple_ret {A : Type} (a : A) (w : world) (path : string)
    (Q : A -> world -> Prop) :
  Q a w -> triple faults (mret a) w 0 path Q.
Proof.
  intros HQ. unfold triple. cbn.
  split; [intros k Hk; lia|]. split; [lia|].
  split; [apply touches_refl | exact HQ].
Qed.

Lemma triple_bind {A B : Type} (c : io A) (k : A -> io B) (w : world)
    (n m : nat) (path : string)
    (P : A -> world -> Prop) (Q : B -> world -> Prop) :
  triple faults c w n path P ->
  (forall a w1, P a w1 -> clock w1 = (clock w + n)%nat ->
                touches path w w1 ->
                triple faults (k a) w1 m path
                       (fun b w2 => touches path w w2 -> Q b w2)) ->
  triple faults (c ≫= k) w (n + m) path Q.
Proof.
  unfold triple at 1 3. intros Hc Hk.
  change ((c ≫= k) w) with
    (match c w with (Ok a, w') => k a w' | (Raise, w') => (Raise, w') end).
  destruct (c w) as [[a|] w1].
  - destruct Hc as (Hq & Hcl & Ht & HP).
    specialize (Hk a w1 HP Hcl Ht). unfold triple in Hk.
    destruct (k a w1) as [[b|] w2].
    + destruct Hk as (Hq2 & Hcl2 & Ht2 & HQ). rewrite Hcl in Hq2.
      pose proof (touches_trans _ _ _ _ Ht Ht2) as Ht3.
      split; [now apply quiet_add|]. split; [lia|]. split; auto.
    + destruct Hk as (Hq2 & Ht2). rewrite Hcl in Hq2. split.
      * rewrite quiet_add. tauto.
      * eapply touches_trans; eauto.
  - destruct Hc as (Hq & Ht). split; [|exact Ht].
    rewrite quiet_add. tauto.
Qed.

Lemma triple_finally {A : Type} (c : io A) (cleanup : io unit) (w : world)
    (n m : nat) (path : string)
    (P : A -> world -> Prop) (Q : A -> world -> Prop) :
  triple faults c w n path P ->
  (forall v, touches path v (snd (cleanup v))) ->
  (forall a w1, P a w1 -> clock w1 = (clock w + n)%nat ->
                touches path w w1 ->
                triple faults cleanup w1 m path
                       (fun _ w2 => touches path w w2 -> Q a w2)) ->
  triple faults (try_finally c cleanup) w (n + m) path Q.
Proof.
  unfold triple at 1 3, try_finally. intros Hc Hany Hk.
  destruct (c w) as [[a|] w1].
  - destruct Hc as (Hq & Hcl & Ht & HP).
    specialize (Hk a w1 HP Hcl Ht). unfold triple in Hk.
    destruct (cleanup w1) as [[b|] w2].
    + destruct Hk as (Hq2 & Hcl2 & Ht2 & HQ). rewrite Hcl in Hq2.
      pose proof (touches_trans _ _ _ _ Ht Ht2) as Ht3.
      split; [now apply quiet_add|]. split; [lia|]. split; auto.
    + destruct Hk as (Hq2 & Ht2). rewrite Hcl in Hq2. split.
      * rewrite quiet_add. tauto.
      * eapply touches_trans; eauto.
  - destruct Hc as (Hq & Ht). split.
    + rewrite quiet_add. tauto.
    + eapply touches_trans; [exact Ht | apply Hany].
Qed.

Lemma triple_conseq {A : Type} (c : io A) (w : world) (n : nat)
    (path : string) (P Q : A -> world -> Prop) :
  triple faults c w n path P -> (forall a w', P a w' -> Q a w') ->
  triple faults c w n path Q.
Proof.
  unfold triple. intros H HPQ. destruct (c w) as [[a|] w']; [|exact H].
  destruct H as (? & ? & ? & ?). auto.
Qed.

End Logic.

(** ** The primitives and the two blocks of the script *)

Section Blocks.

Variable os : platform.
Variable faults : nat -> bool.

Lemma set_fs_touches (path : string)
    (f : gmap string string -> gmap string string) (v : world) :
  (forall d q, q <> path -> f d !! q = d !! q) ->
  touches path v (set_fs f v) /\ clock (set_fs f v) = clock v.
Proof.
  intros Hf. split; [|reflexivity]. split; [reflexivity|]. split.
  - intros q Hq. cbn. now apply Hf.
  - exists []. cbn. now rewrite app_nil_r.
Qed.

Lemma syscall_ok {A : Type} (a b : A) (ev : event) (effect : world -> world)
    (w w' : world) :
  syscall faults a ev effect w = (Ok b, w') ->
  let v := effect {| fs := fs w; stdout := stdout w; trace := trace w;
                     clock := S (clock w) |} in
  fs w' = fs v /\ stdout w' = stdout v /\ trace w' = trace v ++ [ev] /\
  clock w' = clock v.
Proof.
  unfold syscall. destruct (faults (clock w)); [discriminate|].
  intros E. injection E as _ <-. cbn. auto.
Qed.

Lemma triple_open (path : string) (newline : option string) (w : world) :
  triple faults (open_w faults path newline) w 1 path
    (fun f w' => f = File path newline /\
                 fs w' = <[path := EmptyString]> (fs w) /\
                 trace w' = trace w ++ [EvOpen path]).
Proof.
  apply triple_syscall.
  - reflexivity.
  - intros v. apply set_fs_touches. intros d q Hq.
    now apply lookup_insert_ne.
  - intros w' E. apply syscall_ok in E. cbn in E.
    destruct E as (? & _ & ? & _). auto.
Qed.

Lemma triple_write (f : file) (data s : string) (w : world) :
  fs w !! f_path f = Some s ->
  triple faults (write os faults f data) w 1 (f_path f)
    (fun _ w' =>
       fs w' = <[f_path f := s +:+ encode_newlines os (f_newline f) data]>
                 (fs w) /\
       trace w' = trace w ++
                  [EvWrite (f_path f) (encode_newlines os (f_newline f) data)]).
Proof.
  intros Hs. apply triple_syscall.
  - reflexivity.
  - intros v. apply set_fs_touches. intros d q Hq.
    now apply lookup_insert_ne.
  - intros w' E. apply syscall_ok in E. cbn in E.
    destruct E as (Hfs & _ & Htr & _). rewrite Hs in Hfs. auto.
Qed.

Lemma close_touches (f : file) (v : world) :
  touches (f_path f) v (snd (close faults f v)).
Proof.
  apply syscall_touches; [reflexivity|].
  intros u. split; [apply touches_refl | reflexivity].
Qed.

Lemma triple_close (f : file) (w : world) :
  triple faults (close faults f) w 1 (f_path f)
    (fun _ w' => fs w' = fs w /\ trace w' = trace w ++ [EvClose (f_path f)]).
Proof.
  apply triple_syscall.
  - reflexivity.
  - intros u. split; [apply touches_refl | reflexivity].
  - intros w' E. apply syscall_ok in E. cbn in E.
    destruct E as (? & _ & ? & _). auto.
Qed.

(** The loop that writes one chunk per element. *)
Lemma triple_write_all {A : Type} (f : file) (g : A -> string)
    (xs : list A) :
  forall (w : world) (s : string),
    fs w !! f_path f = Some s ->
    triple faults (for_each xs (fun x => write os faults f (g x))) w
      (length xs) (f_path f)
      (fun _ w' =>
         fs w' =
           <[f_path f :=
               s +:+ join_all
                       (map (fun x => encode_newlines os (f_newline f) (g x))
                            xs)]> (fs w) /\
         trace w' =
           trace w ++
           map (fun x => EvWrite (f_path f)
                           (encode_newlines os (f_newline f) (g x))) xs).
Proof.
  induction xs as [|x xs IH]; intros w s Hs.
  - apply triple_ret. cbn. rewrite append_nil_r, app_nil_r.
    split; [|reflexivity]. symmetry. now apply insert_id.
  - change (length (x :: xs)) with (1 + length xs)%nat.
    change (for_each (x :: xs) (fun x => write os faults f (g x)))
      with (write os faults f (g x) ≫=
              fun _ => for_each xs (fun x => write os faults f (g x))).
    eapply triple_bind; [exact (triple_write f (g x) s w Hs)|].
    intros _ w1 [Hfs Htr] _ _.
    eapply triple_conseq.
    + apply IH. rewrite Hfs. apply lookup_insert_eq.
    + cbn beta. intros _ w2 [Hfs2 Htr2] _.
      rewrite Hfs2, Htr2, Hfs, Htr, insert_insert_eq, <- app_assoc.
      cbn [map join_all fold_right]. now rewrite append_assoc.
Qed.

Variables num_rows num_cols : Z.

Lemma triple_generate_csv (w : world) :
  triple faults (generate_csv os faults num_rows num_cols) w
    (length (csv_records num_rows num_cols) + 2) (output_file num_rows)
    (fun _ w' =>
       fs w' = <[output_file num_rows := csv_text num_rows num_cols]> (fs w) /\
       trace w' = trace w ++ csv_events num_rows num_cols).
Proof.
  replace (length (csv_records num_rows num_cols) + 2)%nat
    with (1 + ((1 + length (py_range 1 (num_rows + 1))) + 1))%nat
    by (unfold csv_records; cbn [length]; rewrite length_map; lia).
  unfold generate_csv, with_open.
  eapply triple_bind; [apply triple_open|].
  intros f w1 (-> & Hfs1 & Htr1) _ _.
  eapply triple_finally with
    (P := fun _ w3 =>
            fs w3 = <[output_file num_rows := csv_text num_rows num_cols]>
                      (fs w) /\
            trace w3 = trace w ++ EvOpen (output_file num_rows)
              :: map (fun l => EvWrite (output_file num_rows) (l +:+ CRLF))
                     (csv_records num_rows num_cols)).
  - eapply triple_bind.
    + apply (triple_write (File (output_file num_rows) (Some EmptyString))
               _ EmptyString).
      rewrite Hfs1. apply lookup_insert_eq.
    + cbn [f_path f_newline]. intros _ w2 [Hfs2 Htr2] _ _.
      eapply triple_conseq.
      * apply (triple_write_all
                 (File (output_file num_rows) (Some EmptyString))).
        rewrite Hfs2. apply lookup_insert_eq.
      * cbn [f_path f_newline]. intros _ w3 [Hfs3 Htr3] _.
        rewrite Hfs3, Htr3, Hfs2, Htr2, Hfs1, Htr1, !insert_insert_eq.
        unfold csv_text, csv_records. cbn [map join_all fold_right].
        rewrite !map_map, <- !app_assoc. split; reflexivity.
  - apply (close_touches (File (output_file num_rows) (Some EmptyString))).
  - intros _ w3 [Hfs3 Htr3] _ _.
    eapply triple_conseq;
      [apply (triple_close (File (output_file num_rows) (Some EmptyString)))|].
    cbn [f_path]. intros _ w4 [Hfs4 Htr4] _.
    rewrite Hfs4, Htr4, Hfs3, Htr3. unfold csv_events.
    rewrite <- app_assoc. split; reflexivity.
Qed.

Lemma triple_generate_marker (w : world) :
  triple faults (generate_marker os faults num_rows) w 3 (done_file num_rows)
    (fun _ w' =>
       fs w' = <[done_file num_rows := marker_text os]> (fs w) /\
       trace w' = trace w ++ marker_events os num_rows).
Proof.
  change 3%nat with (1 + (1 + 1))%nat.
  unfold generate_marker, with_open.
  eapply triple_bind; [apply triple_open|].
  intros f w1 (-> & Hfs1 & Htr1) _ _.
  eapply triple_finally.
  - apply (triple_write (File (done_file num_rows) None) _ EmptyString).
    rewrite Hfs1. apply lookup_insert_eq.
  - apply (close_touches (File (done_file num_rows) None)).
  - cbn [f_path f_newline]. intros _ w2 [Hfs2 Htr2] _ _.
    eapply triple_conseq;
      [apply (triple_close (File (done_file num_rows) None))|].
    cbn [f_path]. intros _ w3 [Hfs3 Htr3] _.
    rewrite Hfs3, Htr3, Hfs2, Htr2, Hfs1, Htr1, insert_insert_eq.
    rewrite marker_text_encoded, <- !app_assoc. split; reflexivity.
Qed.

End Blocks.

(** ** The whole script *)

Section Whole.

Variable os : platform.
Variable faults : nat -> bool.
Variables num_rows num_cols : Z.

Lemma triple_touches {A : Type} (c : io A) (w : world) (n : nat)
    (path : string) (Q : A -> world -> Prop) :
  triple faults c w n path Q -> touches path w (snd (c w)).
Proof.
  unfold triple. destruct (c w) as [[a|] w']; cbn [snd]; tauto.
Qed.

Lemma main_unfold (w : world) :
  main os faults num_rows num_cols w =
  match generate_csv os faults num_rows num_cols w with
  | (Ok _, w1) =>
      match print os faults (success_message num_rows num_cols) w1 with
      | (Ok _, w2) => generate_marker os faults num_rows w2
      | (Raise, w2) => (Raise, w2)
      end
  | (Raise, w1) => (Raise, w1)
  end.
Proof. reflexivity. Qed.

Lemma print_unfold (text : string) (w : world) :
  print os faults text w =
  if faults (clock w)
  then (Raise, {| fs := fs w; stdout := stdout w; trace := trace w;
                  clock := S (clock w) |})
  else (Ok tt,
        {| fs := fs w;
           stdout := stdout w +:+ encode_newlines os None (text +:+ chr LF);
           trace := trace w ++ [EvPrint text];
           clock := S (clock w) |}).
Proof. reflexivity. Qed.

(** A run that returns normally met no fault and did everything. *)
Lemma main_ok_inv (w w' : world) :
  main os faults num_rows num_cols w = (Ok tt, w') ->
  quiet faults (clock w) (csv_ops num_rows num_cols + 4) /\
  fs w' = <[done_file num_rows := marker_text os]>
            (<[output_file num_rows := csv_text num_rows num_cols]> (fs w)) /\
  trace w' = trace w ++ csv_events num_rows num_cols
               ++ EvPrint (success_message num_rows num_cols)
               :: marker_events os num_rows.
Proof.
  rewrite main_unfold.
  pose proof (triple_generate_csv os faults num_rows num_cols w) as H1.
  unfold triple in H1. fold (csv_ops num_rows num_cols) in H1.
  destruct (generate_csv os faults num_rows num_cols w) as [[[]|] w1];
    [|discriminate].
  destruct H1 as (Hq1 & Hc1 & _ & Hfs1 & Htr1).
  rewrite print_unfold. destruct (faults (clock w1)) eqn:Hp; [discriminate|].
  match goal with |- generate_marker _ _ _ ?v = _ -> _ => set (w2 := v) end.
  pose proof (triple_generate_marker os faults num_rows w2) as H2.
  unfold triple in H2.
  destruct (generate_marker os faults num_rows w2) as [[[]|] w3];
    [|discriminate].
  destruct H2 as (Hq2 & _ & _ & Hfs2 & Htr2).
  intros E. injection E as <-. subst w2. cbn [fs trace clock] in *.
  split; [|split].
  - replace (csv_ops num_rows num_cols + 4)%nat
      with (csv_ops num_rows num_cols + (1 + 3))%nat by lia.
    rewrite !quiet_add. rewrite quiet_one, <- Hc1.
    repeat split; try assumption.
    now replace (clock w1 + 1)%nat with (S (clock w1)) by lia.
  - now rewrite Hfs2, Hfs1.
  - rewrite Htr2, Htr1, <- !app_assoc. reflexivity.
Qed.

(** A run that meets no fault returns normally. *)
Lemma main_total (w : world) :
  quiet faults (clock w) (csv_ops num_rows num_cols + 4) ->
  fst (main os faults num_rows num_cols w) = Ok tt.
Proof.
  replace (csv_ops num_rows num_cols + 4)%nat
    with (csv_ops num_rows num_cols + (1 + 3))%nat by lia.
  rewrite !quiet_add, quiet_one. intros (Hq1 & Hp & Hq2).
  rewrite main_unfold.
  pose proof (triple_generate_csv os faults num_rows num_cols w) as H1.
  unfold triple in H1. fold (csv_ops num_rows num_cols) in H1.
  destruct (generate_csv os faults num_rows num_cols w) as [[[]|] w1];
    [|now destruct H1].
  destruct H1 as (_ & Hc1 & _).
  rewrite print_unfold, Hc1, Hp.
  match goal with |- fst (generate_marker _ _ _ ?v) = _ => set (w2 := v) end.
  pose proof (triple_generate_marker os faults num_rows w2) as H2.
  unfold triple in H2.
  destruct (generate_marker os faults num_rows w2) as [[[]|] w3];
    [reflexivity|].
  destruct H2 as [H2 _]. exfalso. apply H2. subst w2. cbn [clock].
  now replace (S (clock w + csv_ops num_rows num_cols))%nat
    with (clock w + csv_ops num_rows num_cols + 1)%nat by lia.
Qed.

Lemma on_path_not_marker (evs : list event) :
  Forall (on_path (output_file num_rows)) evs ->
  ~ In (EvOpen (done_file num_rows)) evs.
Proof.
  intros H Hin. rewrite List.Forall_forall in H. specialize (H _ Hin).
  cbn in H. symmetry in H. revert H. apply output_file_not_done_file.
Qed.

(** When the CSV block raises, the run ends there: only the CSV file was
    touched. *)
Lemma csv_raise_touches (w w1 : world) :
  generate_csv os faults num_rows num_cols w = (Raise, w1) ->
  main os faults num_rows num_cols w = (Raise, w1) /\
  touches (output_file num_rows) w w1.
Proof.
  intros E. rewrite main_unfold, E. split; [reflexivity|].
  pose proof (triple_generate_csv os faults num_rows num_cols w) as H1.
  apply triple_touches in H1. now rewrite E in H1.
Qed.

(** When the CSV block returns, what follows leaves the CSV file alone and
    logs the print, if it succeeds, and then only marker operations. *)
Lemma csv_ok_then (w w1 : world) :
  generate_csv os faults num_rows num_cols w = (Ok tt, w1) ->
  let w' := snd (main os faults num_rows num_cols w) in
  fs w1 = <[output_file num_rows := csv_text num_rows num_cols]> (fs w) /\
  trace w1 = trace w ++ csv_events num_rows num_cols /\
  clock w1 = (clock w + csv_ops num_rows num_cols)%nat /\
  fs w' !! output_file num_rows = Some (csv_text num_rows num_cols) /\
  if faults (clock w1)
  then trace w' = trace w1 /\ fs w' = fs w1
  else exists evs,
      trace w' = trace w1 ++ EvPrint (success_message num_rows num_cols) :: evs
      /\ Forall (on_path (done_file num_rows)) evs
      /\ (faults (S (clock w1)) = false ->
          exists evs', evs = EvOpen (done_file num_rows) :: evs').
Proof.
  intros E w'. subst w'. rewrite main_unfold, E.
  pose proof (triple_generate_csv os faults num_rows num_cols w) as H1.
  unfold triple in H1. rewrite E in H1.
  fold (csv_ops num_rows num_cols) in H1.
  destruct H1 as (_ & Hc1 & _ & Hfs1 & Htr1).
  split; [exact Hfs1|]. split; [exact Htr1|]. split; [exact Hc1|].
  rewrite print_unfold. destruct (faults (clock w1)) eqn:Hp; cbn [snd fs trace].
  - split; [|split; reflexivity]. rewrite Hfs1. apply lookup_insert_eq.
  - match goal with |- context [generate_marker _ _ _ ?v] => set (w2 := v) end.
    pose proof (triple_generate_marker os faults num_rows w2) as H2.
    apply triple_touches in H2. destruct H2 as (_ & Hf2 & evs & Ht2 & He2).
    split.
    + rewrite Hf2 by apply output_file_not_done_file.
      subst w2. cbn [fs]. rewrite Hfs1. apply lookup_insert_eq.
    + exists evs. subst w2. cbn [trace clock] in *.
      split; [now rewrite Ht2, <- app_assoc|]. split; [exact He2|].
      intros Hopen. revert Ht2.
      unfold generate_marker, with_open.
      match goal with |- context [(?c ≫= ?k) ?v] =>
        change ((c ≫= k) v) with
          (match c v with (Ok a, u) => k a u | (Raise, u) => (Raise, u) end)
      end.
      unfold open_w at 1, syscall at 1. cbn [clock]. rewrite Hopen.
      cbn [set_fs fs stdout trace clock].
      match goal with |- context [try_finally ?c ?d ?v] =>
        pose proof (triple_finally faults c d v 1 1 (done_file num_rows)
                      (fun _ _ => True) (fun _ _ => True)) as H3;
        set (w3 := v) in *
      end.
      assert (Ht3 : touches (done_file num_rows) w3
                      (snd (try_finally
                              (write os faults
                                 (File (done_file num_rows) None) done_text)
                              (close faults (File (done_file num_rows) None))
                              w3))).
      { eapply triple_touches, H3.
        - eapply triple_conseq.
          + apply (triple_write os faults (File (done_file num_rows) None)
                     done_text EmptyString).
            subst w3. cbn [fs f_path]. apply lookup_insert_eq.
          + auto.
        - apply (close_touches faults (File (done_file num_rows) None)).
        - intros _ v _ _ _. eapply triple_conseq.
          + apply (triple_close faults (File (done_file num_rows) None)).
          + auto. }
      destruct Ht3 as (_ & _ & evs3 & Ht3 & _). rewrite Ht3.
      subst w3. cbn [trace]. rewrite <- !app_assoc. intros Heq.
      apply app_inv_head in Heq. cbn in Heq. injection Heq as <-.
      eauto.
Qed.

End Whole.

(** The fault-free run returns normally. *)
Lemma run_no_faults (os : platform) (R C : Z) (disk : gmap string string) :
  run os no_faults R C disk =
  (Ok tt, snd (run os no_faults R C disk)).
Proof.
  unfold run.
  pose proof (main_total os no_faults R C (init_world disk)) as H.
  destruct (main os no_faults R C (init_world disk)) as [r w'].
  cbn [fst snd] in *. rewrite H; [reflexivity|].
  intros k _. reflexivity.
Qed.

(** What a run that returns normally leaves behind. *)
Lemma run_ok_inv (os : platform) (faults : nat -> bool) (R C : Z)
    (disk : gmap string string) (w' : world) :
  run os faults R C disk = (Ok tt, w') ->
  fs w' = <[done_file R := marker_text os]>
            (<[output_file R := csv_text R C]> disk) /\
  trace w' = csv_events R C ++ EvPrint (success_message R C)
               :: marker_events os R.
Proof.
  unfold run. intros E. apply main_ok_inv in E.
  destruct E as (_ & Hfs & Htr). split; assumption.
Qed.

Lemma run_ok_output (os : platform) (faults : nat -> bool) (R C : Z)
    (disk : gmap string string) (w' : world) :
  run os faults R C disk = (Ok tt, w') ->
  fs w' !! output_file R = Some (csv_text R C) /\
  fs w' !! done_file R = Some (marker_text os).
Proof.
  intros E. apply run_ok_inv in E. destruct E as [-> _]. split.
  - rewrite lookup_insert_ne by (apply not_eq_sym, output_file_not_done_file).
    apply lookup_insert_eq.
  - apply lookup_insert_eq.
Qed.

Lemma run_ok_marker_created (os : platform) (faults : nat -> bool) (R C : Z)
    (disk : gmap string string) (w' : world) :
  run os faults R C disk = (Ok tt, w') -> marker_created R w'.
Proof.
  intros E. apply run_ok_inv in E. destruct E as [_ Htr].
  unfold marker_created. rewrite Htr. apply in_or_app. right.
  right. left. reflexivity.
Qed.

(** ** Labels and cells by position *)

Lemma nth_map_lt {A B : Type} (f : A -> B) (l : list A) (k : nat)
    (d : B) (d' : A) :
  (k < length l)%nat -> nth k (map f l) d = f (nth k l d').
Proof.
  intros Hk. rewrite (nth_indep _ d (f d')) by now rewrite length_map.
  apply map_nth.
Qed.

Lemma columns_from_one (C : Z) :
  columns C = map (fun c => "col" +:+ str c) (py_range 1 (C + 1)).
Proof.
  unfold columns, py_range. rewrite !map_map.
  replace (C + 1 - 1) with (C - 0) by lia.
  apply map_ext. intros k. do 2 f_equal. lia.
Qed.

Lemma columns_length (C : Z) : length (columns C) = Z.to_nat C.
Proof.
  unfold columns. rewrite length_map, py_range_length. f_equal. lia.
Qed.

Lemma columns_nth (C c : Z) :
  1 <= c <= C ->
  nth (Z.to_nat (c - 1)) (columns C) EmptyString = "col" +:+ str c.
Proof.
  intros Hc. rewrite columns_from_one.
  rewrite (nth_map_lt _ _ _ _ 0) by (rewrite py_range_length; lia).
  rewrite py_range_nth by lia. do 2 f_equal. lia.
Qed.


Lemma row_nth (C r c : Z) :
  1 <= c <= C ->
  nth (Z.to_nat (c - 1)) (row C r) EmptyString
  = "data_" +:+ str c +:+ "_" +:+ str r.
Proof.
  intros Hc. unfold row.
  rewrite (nth_map_lt _ _ _ _ 0) by (rewrite py_range_length; lia).
  rewrite py_range_nth by lia.
  replace (1 + Z.of_nat (Z.to_nat (c - 1))) with c by lia. reflexivity.
Qed.

Lemma csv_records_nth (R C r : Z) :
  1 <= r <= R ->
  nth (Z.to_nat r) (csv_records R C) EmptyString = Csv.join_row (row C r).
Proof.
  intros Hr. unfold csv_records.
  replace (Z.to_nat r) with (S (Z.to_nat (r - 1))) by lia. cbn [nth].
  rewrite (nth_map_lt _ _ _ _ 0) by (rewrite py_range_length; lia).
  rewrite py_range_nth by lia.
  replace (1 + Z.of_nat (Z.to_nat (r - 1))) with r by lia. reflexivity.
Qed.

(** ** The claims *)

(** C1: for row count R >= 0 and column count C >= 0, the output file of a
    run that completes holds exactly R + 1 lines: a header line, which is
    the comma-separated join of the C labels col1, ..., colC in this order
    and so has exactly these C fields, followed by exactly R data rows. *)
Theorem output_lines_and_header (os : platform) (faults : nat -> bool)
    (R C : Z) (disk : gmap string string) (w' : world) :
  0 <= R -> 0 <= C ->
  run os faults R C disk = (Ok tt, w') ->
  exists text header rows,
    fs w' !! output_file R = Some text /\
    splitlines text = header :: rows /\
    Z.of_nat (length (splitlines text)) = R + 1 /\
    Z.of_nat (length rows) = R /\
    header = String.concat (chr COMMA)
               (map (fun c => "col" +:+ str c) (py_range 1 (C + 1))) /\
    Z.of_nat (length (fields header)) = C /\
    forall c, 1 <= c <= C ->
      nth (Z.to_nat (c - 1)) (fields header) EmptyString = "col" +:+ str c.
Proof.
  intros HR HC E. apply run_ok_output in E. destruct E as [Hout _].
  exists (csv_text R C), (Csv.join_row (columns C)),
    (map (fun r => Csv.join_row (row C r)) (py_range 1 (R + 1))).
  rewrite splitlines_csv_text.
  split; [exact Hout|]. split; [reflexivity|].
  split; [rewrite csv_records_length; lia|].
  split; [rewrite length_map, py_range_length; lia|].
  split; [rewrite join_row_plain by apply columns_plain;
          now rewrite columns_from_one|].
  rewrite fields_join_row by apply columns_plain.
  split; [rewrite columns_length; lia|].
  apply columns_nth.
Qed.

Lemma output_lines_and_header_witness :
  let w' := snd (run Posix no_faults 2 3 ∅) in
  0 <= 2 /\ 0 <= 3 /\ run Posix no_faults 2 3 ∅ = (Ok tt, w') /\
  exists text header rows,
    fs w' !! output_file 2 = Some text /\
    splitlines text = header :: rows /\
    Z.of_nat (length (splitlines text)) = 2 + 1 /\
    Z.of_nat (length rows) = 2 /\
    header = String.concat (chr COMMA)
               (map (fun c => "col" +:+ str c) (py_range 1 (3 + 1))) /\
    Z.of_nat (length (fields header)) = 3 /\
    forall c, 1 <= c <= 3 ->
      nth (Z.to_nat (c - 1)) (fields header) EmptyString = "col" +:+ str c.
Proof.
  intros w'. split; [lia|]. split; [lia|].
  split; [vm_compute; reflexivity|].
  apply (output_lines_and_header Posix no_faults 2 3 ∅ w');
    [lia | lia | vm_compute; reflexivity].
Defined.

(** C2: for every row number r in 1..R and column index c in 1..C, the
    c-th field of the r-th data row of the output file is the string
    data_c_r, both indices counted from 1. *)
Theorem output_cell (os : platform) (faults : nat -> bool)
    (R C : Z) (disk : gmap string string) (w' : world) (r c : Z) :
  1 <= r <= R -> 1 <= c <= C ->
  run os faults R C disk = (Ok tt, w') ->
  exists text,
    fs w' !! output_file R = Some text /\
    nth (Z.to_nat (c - 1))
        (fields (nth (Z.to_nat r) (splitlines text) EmptyString))
        EmptyString
    = "data_" +:+ str c +:+ "_" +:+ str r.
Proof.
  intros Hr Hc E. apply run_ok_output in E. destruct E as [Hout _].
  exists (csv_text R C). split; [exact Hout|].
  rewrite splitlines_csv_text, csv_records_nth by exact Hr.
  rewrite fields_join_row by apply row_plain.
  now apply row_nth.
Qed.

Lemma output_cell_witness :
  let w' := snd (run Windows no_faults 3 2 ∅) in
  1 <= 3 <= 3 /\ 1 <= 2 <= 2 /\
  run Windows no_faults 3 2 ∅ = (Ok tt, w') /\
  exists text,
    fs w' !! output_file 3 = Some text /\
    nth (Z.to_nat (2 - 1))
        (fields (nth (Z.to_nat 3) (splitlines text) EmptyString))
        EmptyString
    = "data_" +:+ str 2 +:+ "_" +:+ str 3.
Proof.
  intros w'. split; [lia|]. split; [lia|].
  split; [vm_compute; reflexivity|].
  apply (output_cell Windows no_faults 3 2 ∅ w' 3 2);
    [lia | lia | vm_compute; reflexivity].
Defined.

(** C10: no label and no cell holds a comma, a double quote or a newline
    character, so the writer quotes nothing: every line of the output file
    is the plain comma-separated join of its fields, and the file holds no
    double quote. *)
Theorem output_never_quoted (os : platform) (faults : nat -> bool)
    (R C : Z) (disk : gmap string string) (w' : world) :
  run os faults R C disk = (Ok tt, w') ->
  (forall c, free_of_specials ("col" +:+ str c)) /\
  (forall c r, free_of_specials ("data_" +:+ str c +:+ "_" +:+ str r)) /\
  Csv.join_row (columns C) = String.concat (chr COMMA) (columns C) /\
  (forall r, Csv.join_row (row C r) = String.concat (chr COMMA) (row C r)) /\
  exists text,
    fs w' !! output_file R = Some text /\
    splitlines text =
      map (String.concat (chr COMMA))
          (columns C :: map (row C) (py_range 1 (R + 1))) /\
    contains DQUOTE text = false.
Proof.
  intros E. apply run_ok_output in E. destruct E as [Hout _].
  split; [intros c; apply plain_no_char, label_plain|].
  split; [intros c r; apply plain_no_char, cell_plain|].
  split; [apply join_row_plain, columns_plain|].
  split; [intros r; apply join_row_plain, row_plain|].
  exists (csv_text R C). split; [exact Hout|].
  split; [|apply csv_text_no_quote].
  rewrite splitlines_csv_text. unfold csv_records. cbn [map].
  rewrite join_row_plain by apply columns_plain. f_equal.
  rewrite map_map. apply map_ext. intros r.
  apply join_row_plain, row_plain.
Qed.

Lemma output_never_quoted_witness :
  run Posix no_faults 2 2 ∅ = (Ok tt, snd (run Posix no_faults 2 2 ∅)) /\
  (forall c, free_of_specials ("col" +:+ str c)) /\
  (forall c r, free_of_specials ("data_" +:+ str c +:+ "_" +:+ str r)) /\
  Csv.join_row (columns 2) = String.concat (chr COMMA) (columns 2) /\
  (forall r, Csv.join_row (row 2 r) = String.concat (chr COMMA) (row 2 r)) /\
  exists text,
    fs (snd (run Posix no_faults 2 2 ∅)) !! output_file 2 = Some text /\
    splitlines text =
      map (String.concat (chr COMMA))
          (columns 2 :: map (row 2) (py_range 1 (2 + 1))) /\
    contains DQUOTE text = false.
Proof.
  split; [vm_compute; reflexivity|].
  apply (output_never_quoted Posix no_faults 2 2 ∅).
  vm_compute; reflexivity.
Defined.

(** C5, as amended: every line of the output file, the header and every
    data row alike, ends in carriage return and line feed, the terminator
    of the writer's dialect, on every platform. *)
Theorem output_lines_end_in_crlf (os : platform) (faults : nat -> bool)
    (R C : Z) (disk : gmap string string) (w' : world) :
  run os faults R C disk = (Ok tt, w') ->
  exists text,
    fs w' !! output_file R = Some text /\
    terminated_with CRLF text /\
    Forall (fun l => contains CR l = false /\ contains LF l = false)
           (splitlines text).
Proof.
  intros E. apply run_ok_output in E. destruct E as [Hout _].
  exists (csv_text R C). split; [exact Hout|].
  unfold terminated_with. rewrite splitlines_csv_text.
  split; [reflexivity | apply csv_records_plain].
Qed.

Lemma output_lines_end_in_crlf_witness :
  run Posix no_faults 1 2 ∅ = (Ok tt, snd (run Posix no_faults 1 2 ∅)) /\
  exists text,
    fs (snd (run Posix no_faults 1 2 ∅)) !! output_file 1 = Some text /\
    terminated_with CRLF text /\
    Forall (fun l => contains CR l = false /\ contains LF l = false)
           (splitlines text).
Proof.
  split; [vm_compute; reflexivity|].
  apply (output_lines_end_in_crlf Posix no_faults 1 2 ∅).
  vm_compute; reflexivity.
Defined.

(** C5, as stated, fails on a POSIX platform: with no data row and one
    column the output file is the header followed by carriage return and
    line feed, and its line does not end in the platform's terminator, the
    line feed alone. *)
Lemma output_lines_not_linesep_on_posix :
  run Posix no_faults 0 1 ∅ = (Ok tt, snd (run Posix no_faults 0 1 ∅)) /\
  fs (snd (run Posix no_faults 0 1 ∅)) !! output_file 0
    = Some ("col1" +:+ CRLF) /\
  ~ terminated_with (linesep Posix) ("col1" +:+ CRLF).
Proof.
  split; [vm_compute; reflexivity|]. split; [vm_compute; reflexivity|].
  unfold terminated_with. vm_compute. discriminate.
Qed.

(** C6: the marker file is written at the output file's path with .done
    appended, and holds exactly the line CSV generation completed. followed
    by one line terminator and nothing else. *)
Theorem marker_path_and_content (os : platform) (faults : nat -> bool)
    (R C : Z) (disk : gmap string string) (w' : world) :
  run os faults R C disk = (Ok tt, w') ->
  done_file R = output_file R +:+ ".done" /\
  marker_created R w' /\
  fs w' !! (output_file R +:+ ".done")
    = Some ("CSV generation completed." +:+ linesep os) /\
  splitlines ("CSV generation completed." +:+ linesep os)
    = ["CSV generation completed."%string].
Proof.
  intros E. split; [reflexivity|].
  pose proof (run_ok_output _ _ _ _ _ _ E) as [_ Hdone].
  split; [now apply run_ok_marker_created in E|].
  split; [exact Hdone | destruct os; reflexivity].
Qed.

Lemma marker_path_and_content_witness :
  run Windows no_faults 1 1 ∅ = (Ok tt, snd (run Windows no_faults 1 1 ∅)) /\
  done_file 1 = output_file 1 +:+ ".done" /\
  marker_created 1 (snd (run Windows no_faults 1 1 ∅)) /\
  fs (snd (run Windows no_faults 1 1 ∅)) !! (output_file 1 +:+ ".done")
    = Some ("CSV generation completed." +:+ linesep Windows) /\
  splitlines ("CSV generation completed." +:+ linesep Windows)
    = ["CSV generation completed."%string].
Proof.
  split; [vm_compute; reflexivity|].
  apply (marker_path_and_content Windows no_faults 1 1 ∅).
  vm_compute; reflexivity.
Defined.

(** C7: a second run with the same configuration leaves the output file and
    the marker file with the very content the first run gave them, whatever
    the two files held before (the content depends on the two constants
    alone); run on what the first run left, it leaves the disk as it was. *)
Theorem rerun_idempotent (os : platform) (faults1 faults2 : nat -> bool)
    (R C : Z) (disk1 disk2 : gmap string string) (w1 w2 : world) :
  run os faults1 R C disk1 = (Ok tt, w1) ->
  run os faults2 R C disk2 = (Ok tt, w2) ->
  fs w2 !! output_file R = fs w1 !! output_file R /\
  fs w2 !! done_file R = fs w1 !! done_file R /\
  (disk2 = fs w1 -> fs w2 = fs w1).
Proof.
  intros E1 E2.
  pose proof (run_ok_output _ _ _ _ _ _ E1) as [Ho1 Hd1].
  pose proof (run_ok_output _ _ _ _ _ _ E2) as [Ho2 Hd2].
  split; [congruence|]. split; [congruence|].
  intros ->. apply run_ok_inv in E1, E2.
  destruct E1 as [H1 _]. destruct E2 as [H2 _]. rewrite H2, H1.
  pose proof (output_file_not_done_file R) as Hne.
  rewrite (insert_insert_ne _ (output_file R) (done_file R)) by exact Hne.
  now rewrite !insert_insert_eq.
Qed.

Lemma rerun_idempotent_witness :
  let w1 := snd (run Posix no_faults 2 2 {["2_large_test.csv" := "stale"]}) in
  let w2 := snd (run Posix no_faults 2 2 (fs w1)) in
  run Posix no_faults 2 2 {["2_large_test.csv" := "stale"]} = (Ok tt, w1) /\
  run Posix no_faults 2 2 (fs w1) = (Ok tt, w2) /\
  fs w2 !! output_file 2 = fs w1 !! output_file 2 /\
  fs w2 !! done_file 2 = fs w1 !! done_file 2 /\
  (fs w1 = fs w1 -> fs w2 = fs w1).
Proof.
  intros w1 w2.
  split; [vm_compute; reflexivity|]. split; [vm_compute; reflexivity|].
  apply (rerun_idempotent Posix no_faults no_faults 2 2
           {["2_large_test.csv" := "stale"]} (fs w1) w1 w2);
    vm_compute; reflexivity.
Defined.

(** C8: with row count 0, for any column count, the output file holds the
    header line and no data row, and the marker file is still created with
    its fixed content. *)
Theorem zero_rows (os : platform) (C : Z) (disk : gmap string string) :
  exists w' text header,
    run os no_faults 0 C disk = (Ok tt, w') /\
    fs w' !! output_file 0 = Some text /\
    splitlines text = [header] /\
    fields header = columns C /\
    marker_created 0 w' /\
    fs w' !! done_file 0 = Some ("CSV generation completed." +:+ linesep os).
Proof.
  exists (snd (run os no_faults 0 C disk)), (csv_text 0 C),
    (Csv.join_row (columns C)).
  pose proof (run_no_faults os 0 C disk) as E.
  split; [exact E|].
  pose proof (run_ok_output _ _ _ _ _ _ E) as [Hout Hdone].
  pose proof (run_ok_marker_created _ _ _ _ _ _ E) as Hm.
  split; [exact Hout|]. split; [apply splitlines_csv_text|].
  split; [apply fields_join_row, columns_plain|].
  split; [exact Hm | exact Hdone].
Qed.

(** C9: with 3 rows and 2 columns the output file is made of the four
    lines col1,col2 / data_1_1,data_2_1 / data_1_2,data_2_2 /
    data_1_3,data_2_3 in this order, and the marker file holds the line
    CSV generation completed. *)
Theorem scenario_three_by_two (os : platform) (disk : gmap string string) :
  exists w' text marker,
    run os no_faults 3 2 disk = (Ok tt, w') /\
    fs w' !! "3_large_test.csv" = Some text /\
    splitlines text =
      ["col1,col2"; "data_1_1,data_2_1"; "data_1_2,data_2_2";
       "data_1_3,data_2_3"]%string /\
    fs w' !! "3_large_test.csv.done" = Some marker /\
    marker = "CSV generation completed." +:+ linesep os /\
    splitlines marker = ["CSV generation completed."%string].
Proof.
  exists (snd (run os no_faults 3 2 disk)), (csv_text 3 2), (marker_text os).
  pose proof (run_no_faults os 3 2 disk) as E.
  split; [exact E|].
  pose proof (run_ok_output _ _ _ _ _ _ E) as [Hout Hdone].
  split; [exact Hout|]. split; [vm_compute; reflexivity|].
  split; [exact Hdone|]. split; [reflexivity|].
  destruct os; reflexivity.
Qed.

(** ** The order of the operations *)

Lemma csv_events_on_path (R C : Z) :
  Forall (on_path (output_file R)) (csv_events R C).
Proof.
  unfold csv_events. constructor; [reflexivity|].
  apply Forall_app. split.
  - apply Forall_map, List.Forall_forall. intros l _. reflexivity.
  - constructor; [reflexivity | constructor].
Qed.

Lemma occurs_before_app (a b : event -> bool) (l1 l2 : list event) :
  occurs_before a b (l1 ++ l2) =
  occurs_before a b l1 || (existsb a l1 && existsb b l2)
  || occurs_before a b l2.
Proof.
  induction l1 as [|e l1 IH]; cbn [app occurs_before existsb].
  - reflexivity.
  - rewrite IH, existsb_app.
    destruct (a e), (existsb b l1), (existsb b l2), (occurs_before a b l1),
      (existsb a l1), (occurs_before a b l2); reflexivity.
Qed.

Lemma occurs_before_none_l (a b : event -> bool) (l : list event) :
  existsb a l = false -> occurs_before a b l = false.
Proof.
  induction l as [|e l IH]; cbn [occurs_before existsb]; [reflexivity|].
  intros H. apply orb_false_elim in H. destruct H as [-> H].
  now rewrite (IH H).
Qed.


Lemma on_output_not_print (R : Z) (evs : list event) :
  Forall (on_path (output_file R)) evs ->
  existsb is_print evs = false /\
  existsb (touches_file (done_file R)) evs = false.
Proof.
  induction 1 as [|e evs He _ [IH1 IH2]]; [split; reflexivity|].
  cbn [existsb]. rewrite IH1, IH2.
  assert (Hne : String.eqb (output_file R) (done_file R) = false)
    by (apply String.eqb_neq, output_file_not_done_file).
  destruct e; cbn in He; try contradiction; subst; cbn;
    rewrite ?Hne; split; reflexivity.
Qed.

(** C4, as amended: the success message is printed after the output file
    is closed and before the marker file is opened; opening, writing and
    closing the marker file are the last steps of the script. *)
Theorem print_then_marker (os : platform) (faults : nat -> bool)
    (R C : Z) (disk : gmap string string) (w' : world) :
  run os faults R C disk = (Ok tt, w') ->
  trace w' =
    csv_events R C
      ++ [EvPrint (success_message R C);
          EvOpen (done_file R);
          EvWrite (done_file R) ("CSV generation completed." +:+ linesep os);
          EvClose (done_file R)] /\
  print_before_marker R (trace w').
Proof.
  intros E. apply run_ok_inv in E. destruct E as [_ Htr].
  split; [exact Htr|]. rewrite Htr. unfold print_before_marker.
  destruct (on_output_not_print R _ (csv_events_on_path R C)) as [Hp Hm].
  rewrite !occurs_before_app, Hp, Hm.
  rewrite (occurs_before_none_l is_print _ _ Hp).
  rewrite (occurs_before_none_l (touches_file (done_file R)) _ _ Hm).
  cbn. rewrite String.eqb_refl. split; reflexivity.
Qed.

Lemma print_then_marker_witness :
  run Posix no_faults 1 1 ∅ = (Ok tt, snd (run Posix no_faults 1 1 ∅)) /\
  trace (snd (run Posix no_faults 1 1 ∅)) =
    csv_events 1 1
      ++ [EvPrint (success_message 1 1);
          EvOpen (done_file 1);
          EvWrite (done_file 1)
                  ("CSV generation completed." +:+ linesep Posix);
          EvClose (done_file 1)] /\
  print_before_marker 1 (trace (snd (run Posix no_faults 1 1 ∅))).
Proof.
  split; [vm_compute; reflexivity|].
  apply (print_then_marker Posix no_faults 1 1 ∅).
  vm_compute; reflexivity.
Defined.

(** C4, as stated, fails: in the run with no row and no column the marker
    file is not handled before the print; it is opened after it. *)
Lemma marker_not_before_print :
  run Posix no_faults 0 0 ∅ = (Ok tt, snd (run Posix no_faults 0 0 ∅)) /\
  ~ marker_before_print 0 (trace (snd (run Posix no_faults 0 0 ∅))).
Proof.
  split; [vm_compute; reflexivity|].
  unfold marker_before_print. vm_compute. intros [H _]. discriminate H.
Qed.

(** C3, as amended: the marker file is created only in a run whose write
    of the output file completed without error, and then after the output
    file is fully written and closed and the message printed; when the
    write of the output file raises, no marker file is created and the
    marker path keeps what it held.  Conversely the marker file is created
    when the write of the output file completes and neither the print nor
    the opening of the marker file raises. *)
Theorem marker_only_after_output (os : platform) (faults : nat -> bool)
    (R C : Z) (disk : gmap string string) :
  (marker_created R (snd (run os faults R C disk)) ->
     fst (generate_csv os faults R C (init_world disk)) = Ok tt /\
     faults (csv_ops R C) = false /\
     fs (snd (run os faults R C disk)) !! output_file R
       = Some (csv_text R C) /\
     exists evs,
       trace (snd (run os faults R C disk)) =
         csv_events R C ++ EvPrint (success_message R C) :: evs /\
       Forall (on_path (done_file R)) evs /\
       In (EvOpen (done_file R)) evs) /\
  (fst (generate_csv os faults R C (init_world disk)) = Raise ->
     ~ marker_created R (snd (run os faults R C disk)) /\
     fs (snd (run os faults R C disk)) !! done_file R
       = disk !! done_file R) /\
  (fst (generate_csv os faults R C (init_world disk)) = Ok tt ->
     faults (csv_ops R C) = false ->
     faults (S (csv_ops R C)) = false ->
     marker_created R (snd (run os faults R C disk))).
Proof.
  unfold run, marker_created.
  destruct (generate_csv os faults R C (init_world disk)) as [[[]|] w1] eqn:E.
  - pose proof (csv_ok_then os faults R C _ _ E) as H. cbn zeta in H.
    destruct H as (_ & Htr1 & Hc1 & Hout & H).
    cbn [init_world trace clock] in Htr1, Hc1. cbn [app Nat.add] in Htr1, Hc1.
    rewrite Hc1 in H. cbn [fst].
    pose proof (on_path_not_marker R _ (csv_events_on_path R C)) as Hno.
    destruct (faults (csv_ops R C)) eqn:Hp.
    + destruct H as [Htr _]. rewrite Htr, Htr1.
      split; [intros Hin; contradiction|].
      split; [discriminate|]. intros _ Hf. discriminate Hf.
    + destruct H as (evs & Htr & Hev & Hopen). rewrite Htr, Htr1.
      split; [|split; [discriminate|]].
      * intros Hin. split; [reflexivity|]. split; [reflexivity|].
        split; [exact Hout|]. exists evs.
        split; [reflexivity|]. split; [exact Hev|].
        apply in_app_or in Hin. destruct Hin as [Hin|Hin]; [contradiction|].
        destruct Hin as [Hin|Hin]; [discriminate Hin | exact Hin].
      * intros _ _ Hf. destruct (Hopen Hf) as [evs' ->].
        apply in_or_app. right. right. left. reflexivity.
  - apply csv_raise_touches in E. destruct E as [-> Ht]. cbn [fst snd].
    destruct Ht as (_ & Hfs & evs & Htr & Hev).
    cbn [init_world trace fs app] in Htr, Hfs.
    split; [|split; [|discriminate]].
    + intros Hin. exfalso. rewrite Htr in Hin.
      now apply (on_path_not_marker R evs).
    + intros _. split.
      * rewrite Htr. now apply on_path_not_marker.
      * apply Hfs, not_eq_sym, output_file_not_done_file.
Qed.

Lemma marker_only_after_output_witness :
  (marker_created 1 (snd (run Posix no_faults 1 1 ∅)) /\
   fs (snd (run Posix no_faults 1 1 ∅)) !! output_file 1
     = Some (csv_text 1 1)) /\
  (fst (generate_csv Posix (fault_at 2) 1 1 (init_world ∅)) = Raise /\
   ~ marker_created 1 (snd (run Posix (fault_at 2) 1 1 ∅))).
Proof.
  split.
  - destruct (marker_only_after_output Posix no_faults 1 1 ∅)
      as (Honly & _ & Hif).
    assert (Hm : marker_created 1 (snd (run Posix no_faults 1 1 ∅))).
    { apply Hif; vm_compute; reflexivity. }
    split; [exact Hm|].
    destruct (Honly Hm) as (_ & _ & Hout & _). exact Hout.
  - destruct (marker_only_after_output Posix (fault_at 2) 1 1 ∅)
      as (_ & Hraise & _).
    assert (Hr : fst (generate_csv Posix (fault_at 2) 1 1 (init_world ∅))
                 = Raise) by (vm_compute; reflexivity).
    split; [exact Hr|].
    destruct (Hraise Hr) as [Hno _]. exact Hno.
Defined.

(** C3, as stated, fails: when the print raises after the output file was
    written and closed without error, no marker file is created. *)
Lemma output_written_but_no_marker :
  ~ (marker_created 0 (snd (run Posix (fault_at 3) 0 1 ∅)) <->
     fst (generate_csv Posix (fault_at 3) 0 1 (init_world ∅)) = Ok tt).
Proof.
  intros [_ H].
  assert (Hc : fst (generate_csv Posix (fault_at 3) 0 1 (init_world ∅))
               = Ok tt) by (vm_compute; reflexivity).
  specialize (H Hc). unfold marker_created in H. vm_compute in H.
  repeat (destruct H as [H|H]; [discriminate H|]). exact H.
Qed.

(** ** Further properties of the script *)

(** *** Numerals, names and cells *)

Lemma to_int_not_nil (z : Z) :
  Z.to_int z <> Decimal.Pos Decimal.Nil /\
  Z.to_int z <> Decimal.Neg Decimal.Nil.
Proof.
  destruct z as [|p|p]; cbn; split; try discriminate;
    intros [= H]; now apply DecimalPos.Unsigned.to_uint_nonnil in H.
Qed.

(** Different integers print differently. *)
Lemma str_inj (a b : Z) : str a = str b -> a = b.
Proof.
  intros H. apply DecimalZ.to_int_inj.
  destruct (to_int_not_nil a) as [Ha1 Ha2].
  destruct (to_int_not_nil b) as [Hb1 Hb2].
  pose proof (NilZero.isi _ Ha1 Ha2) as Ea.
  pose proof (NilZero.isi _ Hb1 Hb2) as Eb.
  unfold str in H. rewrite H in Ea. congruence.
Qed.

Lemma uint_no_underscore (u : Decimal.uint) :
  contains "_"%char (NilEmpty.string_of_uint u) = false.
Proof. induction u; simpl; auto. Qed.

Lemma str_no_underscore (z : Z) : contains "_"%char (str z) = false.
Proof.
  unfold str, NilZero.string_of_int, NilZero.string_of_uint.
  destruct (Z.to_int z) as [u|u]; destruct u; simpl;
    try reflexivity; apply uint_no_underscore.
Qed.

Lemma append_length (a b : string) :
  String.length (a +:+ b) = (String.length a + String.length b)%nat.
Proof.
  induction a as [|c a IH]; simpl; [reflexivity | now rewrite IH].
Qed.

Lemma append_inv_tail (a b s : string) : a +:+ s = b +:+ s -> a = b.
Proof.
  revert b. induction a as [|c a IH]; intros [|d b] H.
  - reflexivity.
  - apply (f_equal String.length) in H.
    rewrite !append_length in H. cbn in H. lia.
  - apply (f_equal String.length) in H.
    rewrite !append_length in H. cbn in H. lia.
  - simpl in H. injection H as -> H. f_equal. now apply IH.
Qed.

(** A text is cut at the first occurrence of a character in one way. *)
Lemma split_at_char (x : ascii) (a a' b b' : string) :
  contains x a = false -> contains x a' = false ->
  a +:+ String x b = a' +:+ String x b' -> a = a' /\ b = b'.
Proof.
  revert a'. induction a as [|c a IH]; intros [|c' a'] Ha Ha' H; simpl in *.
  - injection H as ->. auto.
  - injection H as <- _. now rewrite Ascii.eqb_refl in Ha'.
  - injection H as -> _. now rewrite Ascii.eqb_refl in Ha.
  - injection H as -> H.
    apply orb_false_elim in Ha. destruct Ha as [_ Ha].
    apply orb_false_elim in Ha'. destruct Ha' as [_ Ha'].
    destruct (IH a' Ha Ha' H) as [-> ->]. auto.
Qed.

Lemma output_file_inj (R1 R2 : Z) :
  output_file R1 = output_file R2 -> R1 = R2.
Proof. unfold output_file. intros H. now apply append_inv_tail, str_inj in H. Qed.

Lemma done_file_not_output_file (R1 R2 : Z) : done_file R1 <> output_file R2.
Proof.
  unfold done_file, output_file. rewrite append_assoc. intros H.
  change (str R1 +:+ String "_" "large_test.csv.done"
          = str R2 +:+ String "_" "large_test.csv") in H.
  apply split_at_char in H; try apply str_no_underscore.
  destruct H as [_ H]. discriminate H.
Qed.

Lemma label_inj (a b : Z) : "col" +:+ str a = "col" +:+ str b -> a = b.
Proof. simpl. intros [= H]. now apply str_inj. Qed.

Lemma cell_inj (c r c' r' : Z) :
  "data_" +:+ str c +:+ "_" +:+ str r = "data_" +:+ str c' +:+ "_" +:+ str r' ->
  c = c' /\ r = r'.
Proof.
  simpl. intros [= H].
  change (str c +:+ String "_" (str r) = str c' +:+ String "_" (str r')) in H.
  apply split_at_char in H; try apply str_no_underscore.
  destruct H as [Hc Hr]. split; now apply str_inj.
Qed.

Lemma py_range_NoDup (lo hi : Z) : List.NoDup (py_range lo hi).
Proof.
  unfold py_range. apply List.NoDup_map_NoDup_ForallPairs.
  - intros a b _ _ H. lia.
  - apply List.seq_NoDup.
Qed.

Lemma columns_NoDup (C : Z) : List.NoDup (columns C).
Proof.
  unfold columns. apply List.NoDup_map_NoDup_ForallPairs.
  - intros a b _ _ H. apply label_inj in H. lia.
  - apply py_range_NoDup.
Qed.

Lemma row_NoDup (C r : Z) : List.NoDup (row C r).
Proof.
  unfold row. apply List.NoDup_map_NoDup_ForallPairs.
  - intros a b _ _ H. now apply cell_inj in H.
  - apply py_range_NoDup.
Qed.

(** *** The table read back *)

Lemma fields_csv_records (R C : Z) :
  map fields (csv_records R C)
  = columns C :: map (row C) (py_range 1 (R + 1)).
Proof.
  unfold csv_records. cbn [map].
  rewrite fields_join_row by apply columns_plain. f_equal.
  rewrite map_map. apply map_ext. intros r.
  apply fields_join_row, row_plain.
Qed.

Lemma csv_text_cell (R C r c : Z) :
  1 <= r <= R -> 1 <= c <= C ->
  nth (Z.to_nat (c - 1))
      (fields (nth (Z.to_nat r) (splitlines (csv_text R C)) EmptyString))
      EmptyString
  = "data_" +:+ str c +:+ "_" +:+ str r.
Proof.
  intros Hr Hc.
  rewrite splitlines_csv_text, csv_records_nth by exact Hr.
  rewrite fields_join_row by apply row_plain.
  now apply row_nth.
Qed.

Lemma py_range_empty (lo hi : Z) : hi <= lo -> py_range lo hi = [].
Proof.
  intros H. unfold py_range.
  replace (Z.to_nat (hi - lo)) with 0%nat by lia. reflexivity.
Qed.

(** *** Standard output *)

Lemma translate_app (nl a b : string) :
  translate nl (a +:+ b) = translate nl a +:+ translate nl b.
Proof.
  induction a as [|c a IH]; simpl; [reflexivity|].
  destruct (Ascii.eqb c LF); rewrite IH; [now rewrite append_assoc|].
  reflexivity.
Qed.

Lemma translate_no_lf (nl s : string) :
  contains LF s = false -> translate nl s = s.
Proof.
  induction s as [|c s IH]; simpl; [reflexivity|]. intros H.
  apply orb_false_elim in H. destruct H as [-> H]. now rewrite IH.
Qed.

Lemma str_no_newline (c : ascii) (z : Z) :
  c = CR \/ c = LF -> contains c (str z) = false.
Proof.
  intros Hc. destruct (plain_no_char _ (str_plain z)) as (_ & _ & ? & ?).
  destruct Hc as [-> | ->]; assumption.
Qed.

Lemma success_message_no_newline (c : ascii) (R C : Z) :
  c = CR \/ c = LF -> contains c (success_message R C) = false.
Proof.
  intros Hc. unfold success_message, output_file.
  rewrite !contains_app, !(str_no_newline c) by exact Hc.
  destruct Hc as [-> | ->]; reflexivity.
Qed.

Lemma printed_line (os : platform) (R C : Z) :
  encode_newlines os None (success_message R C +:+ chr LF)
  = success_message R C +:+ linesep os.
Proof.
  unfold encode_newlines. rewrite translate_app.
  rewrite translate_no_lf by (apply success_message_no_newline; auto).
  f_equal. destruct os; reflexivity.
Qed.

Lemma splitlines_one_line (os : platform) (l : string) :
  contains CR l = false -> contains LF l = false ->
  splitlines (l +:+ linesep os) = [l].
Proof.
  intros Hcr Hlf. destruct os.
  - induction l as [|c l IH]; [reflexivity|].
    simpl in Hcr, Hlf.
    apply orb_false_elim in Hcr. destruct Hcr as [Hc1 Hcr].
    apply orb_false_elim in Hlf. destruct Hlf as [Hc2 Hlf].
    change (splitlines (String c (l +:+ linesep Posix)) = [String c l]).
    cbn [splitlines]. now rewrite Hc1, Hc2, (IH Hcr Hlf).
  - exact (splitlines_line l EmptyString Hcr Hlf).
Qed.

(** *** Every run, whatever the schedule *)

Section AnyRun.

Variable os : platform.
Variable faults : nat -> bool.
Variables num_rows num_cols : Z.

(** What the two blocks and the print do to the disk and to the standard
    output, whether they return or raise. *)
Lemma main_effects (w : world) :
  let w' := snd (main os faults num_rows num_cols w) in
  (forall q, q <> output_file num_rows -> q <> done_file num_rows ->
             fs w' !! q = fs w !! q) /\
  (stdout w' = stdout w \/
   stdout w' = stdout w +:+ success_message num_rows num_cols +:+ linesep os) /\
  (fst (main os faults num_rows num_cols w) = Ok tt ->
   stdout w' = stdout w +:+ success_message num_rows num_cols +:+ linesep os) /\
  (fst (generate_csv os faults num_rows num_cols w) = Raise ->
   stdout w' = stdout w).
Proof.
  cbn zeta. rewrite main_unfold.
  pose proof (triple_touches _ _ _ _ _ _
                (triple_generate_csv os faults num_rows num_cols w)) as H1.
  destruct (generate_csv os faults num_rows num_cols w) as [[[]|] w1];
    cbn [snd fst] in *; destruct H1 as (Ho1 & Hf1 & _).
  - rewrite print_unfold. destruct (faults (clock w1)); cbn [snd fst].
    + split; [intros q Hq _; now apply Hf1|]. split; [now left|].
      split; discriminate.
    + match goal with |- context [generate_marker _ _ _ ?v] =>
        set (w2 := v) end.
      pose proof (triple_touches _ _ _ _ _ _
                    (triple_generate_marker os faults num_rows w2)) as H2.
      destruct H2 as (Ho2 & Hf2 & _).
      assert (Hs : stdout (snd (generate_marker os faults num_rows w2))
                   = stdout w +:+ success_message num_rows num_cols
                       +:+ linesep os).
      { rewrite Ho2. subst w2. cbn [stdout]. now rewrite printed_line, Ho1. }
      split.
      * intros q Hq Hd. rewrite Hf2 by exact Hd. subst w2. cbn [fs].
        now apply Hf1.
      * split; [now right|]. split; [intros _; exact Hs | discriminate].
  - split; [intros q Hq _; now apply Hf1|]. split; [now left|].
    split; [discriminate | intros _; exact Ho1].
Qed.

End AnyRun.

Lemma row_length (C r : Z) : length (row C r) = Z.to_nat C.
Proof.
  unfold row. rewrite length_map, py_range_length. f_equal. lia.
Qed.

Lemma map_const_repeat {A B : Type} (b : B) (l : list A) :
  map (fun _ => b) l = repeat b (length l).
Proof. induction l as [|a l IH]; cbn; [reflexivity | now rewrite IH]. Qed.

Lemma csv_ops_count (R C : Z) : (csv_ops R C + 4 = Z.to_nat R + 7)%nat.
Proof. unfold csv_ops. rewrite csv_records_length. lia. Qed.

(** *** The properties *)

(** X1: nothing is caught or retried: a run returns normally exactly when
    none of its I/O primitives raises, and these are the open of the output
    file, one write for the header and one per data row, its close, the
    print, and the open, write and close of the marker file. *)
Theorem run_succeeds_iff_no_fault (os : platform) (faults : nat -> bool)
    (R C : Z) (disk : gmap string string) :
  fst (run os faults R C disk) = Ok tt <->
  forall k, (k < Z.to_nat R + 7)%nat -> faults k = false.
Proof.
  rewrite <- (csv_ops_count R C). unfold run. split.
  - intros H.
    destruct (main os faults R C (init_world disk)) as [r w'] eqn:E.
    cbn [fst] in H. subst r. apply main_ok_inv in E.
    destruct E as [Hq _]. exact Hq.
  - intros H. apply main_total. exact H.
Qed.

(** X2: whatever raises, a run reads and writes no file but its output file
    and its marker file: every other path of the disk keeps what it held. *)
Theorem run_touches_only_its_two_files (os : platform)
    (faults : nat -> bool) (R C : Z) (disk : gmap string string)
    (q : string) :
  q <> output_file R -> q <> done_file R ->
  fs (snd (run os faults R C disk)) !! q = disk !! q.
Proof.
  intros Hq Hd. unfold run.
  destruct (main_effects os faults R C (init_world disk)) as [Hf _].
  now apply Hf.
Qed.

Lemma run_touches_only_its_two_files_witness :
  "notes.txt"%string <> output_file 1 /\
  "notes.txt"%string <> done_file 1 /\
  fs (snd (run Posix (fault_at 2) 1 1 {["notes.txt" := "kept"]}))
    !! "notes.txt"
  = ({["notes.txt" := "kept"]} : gmap string string) !! "notes.txt".
Proof.
  assert (H1 : "notes.txt"%string <> output_file 1)
    by (vm_compute; discriminate).
  assert (H2 : "notes.txt"%string <> done_file 1)
    by (vm_compute; discriminate).
  split; [exact H1|]. split; [exact H2|].
  exact (run_touches_only_its_two_files Posix (fault_at 2) 1 1
           {["notes.txt" := "kept"]} "notes.txt" H1 H2).
Defined.

(** X3: reading the output file back, line by line and field by field,
    gives the very table the script built: the list of labels, then one
    list of cells per row number, for every row and column count. *)
Theorem output_reads_back_as_table (os : platform) (faults : nat -> bool)
    (R C : Z) (disk : gmap string string) (w' : world) :
  run os faults R C disk = (Ok tt, w') ->
  exists text,
    fs w' !! output_file R = Some text /\
    map fields (splitlines text)
    = columns C :: map (row C) (py_range 1 (R + 1)).
Proof.
  intros E. apply run_ok_output in E. destruct E as [Hout _].
  exists (csv_text R C). split; [exact Hout|].
  rewrite splitlines_csv_text. apply fields_csv_records.
Qed.

Lemma output_reads_back_as_table_witness :
  run Windows no_faults 2 2 ∅ = (Ok tt, snd (run Windows no_faults 2 2 ∅)) /\
  exists text,
    fs (snd (run Windows no_faults 2 2 ∅)) !! output_file 2 = Some text /\
    map fields (splitlines text)
    = columns 2 :: map (row 2) (py_range 1 (2 + 1)).
Proof.
  split; [vm_compute; reflexivity|].
  apply (output_reads_back_as_table Windows no_faults 2 2 ∅).
  vm_compute; reflexivity.
Defined.

(** X4: the output file is rectangular: every line, the header and each
    data row, has the same number of fields, the column count (none when
    the column count is not positive). *)
Theorem output_is_rectangular (os : platform) (faults : nat -> bool)
    (R C : Z) (disk : gmap string string) (w' : world) :
  run os faults R C disk = (Ok tt, w') ->
  exists text,
    fs w' !! output_file R = Some text /\
    Forall (fun line => length (fields line) = Z.to_nat C) (splitlines text).
Proof.
  intros E. apply run_ok_output in E. destruct E as [Hout _].
  exists (csv_text R C). split; [exact Hout|].
  rewrite splitlines_csv_text.
  apply (Forall_map fields (fun fs => length fs = Z.to_nat C)).
  rewrite fields_csv_records. constructor; [apply columns_length|].
  apply Forall_map, List.Forall_forall. intros r _. apply row_length.
Qed.

Lemma output_is_rectangular_witness :
  run Posix no_faults 2 3 ∅ = (Ok tt, snd (run Posix no_faults 2 3 ∅)) /\
  exists text,
    fs (snd (run Posix no_faults 2 3 ∅)) !! output_file 2 = Some text /\
    Forall (fun line => length (fields line) = Z.to_nat 3) (splitlines text).
Proof.
  split; [vm_compute; reflexivity|].
  apply (output_is_rectangular Posix no_faults 2 3 ∅).
  vm_compute; reflexivity.
Defined.

(** X5: a row count that is zero or negative is not rejected: the loop
    over [range(1, num_rows + 1)] runs no iteration and the output file
    holds the header line alone. *)
Theorem nonpositive_rows_header_only (os : platform) (faults : nat -> bool)
    (R C : Z) (disk : gmap string string) (w' : world) :
  R <= 0 ->
  run os faults R C disk = (Ok tt, w') ->
  exists text,
    fs w' !! output_file R = Some text /\
    splitlines text = [String.concat (chr COMMA) (columns C)] /\
    text = String.concat (chr COMMA) (columns C) +:+ CRLF.
Proof.
  intros HR E. apply run_ok_output in E. destruct E as [Hout _].
  exists (csv_text R C). split; [exact Hout|].
  rewrite splitlines_csv_text. unfold csv_text, csv_records.
  rewrite py_range_empty by lia. cbn [map join_all fold_right].
  rewrite join_row_plain by apply columns_plain.
  split; [reflexivity | apply append_nil_r].
Qed.

Lemma nonpositive_rows_header_only_witness :
  -4 <= 0 /\
  run Posix no_faults (-4) 2 ∅
    = (Ok tt, snd (run Posix no_faults (-4) 2 ∅)) /\
  exists text,
    fs (snd (run Posix no_faults (-4) 2 ∅)) !! output_file (-4) = Some text /\
    splitlines text = [String.concat (chr COMMA) (columns 2)] /\
    text = String.concat (chr COMMA) (columns 2) +:+ CRLF.
Proof.
  split; [lia|]. split; [vm_compute; reflexivity|].
  apply (nonpositive_rows_header_only Posix no_faults (-4) 2 ∅);
    [lia | vm_compute; reflexivity].
Defined.

(** X6: a column count that is zero or negative is not rejected either:
    the label list and every row are empty, so the output file is made of
    one empty line for the header and one per data row, and no line has a
    field. *)
Theorem nonpositive_cols_empty_lines (os : platform) (faults : nat -> bool)
    (R C : Z) (disk : gmap string string) (w' : world) :
  C <= 0 ->
  run os faults R C disk = (Ok tt, w') ->
  columns C = [] /\
  (forall r, row C r = []) /\
  exists text,
    fs w' !! output_file R = Some text /\
    splitlines text = repeat EmptyString (S (Z.to_nat R)).
Proof.
  intros HC E. apply run_ok_output in E. destruct E as [Hout _].
  assert (Hcols : columns C = [])
    by (unfold columns; now rewrite py_range_empty by lia).
  assert (Hrow : forall r, row C r = [])
    by (intros r; unfold row; now rewrite py_range_empty by lia).
  split; [exact Hcols|]. split; [exact Hrow|].
  exists (csv_text R C). split; [exact Hout|].
  rewrite splitlines_csv_text. unfold csv_records. rewrite Hcols.
  cbn [repeat]. f_equal.
  rewrite (map_ext _ (fun _ => EmptyString))
    by (intros r; now rewrite Hrow).
  rewrite map_const_repeat, py_range_length. f_equal. lia.
Qed.

Lemma nonpositive_cols_empty_lines_witness :
  0 <= 0 /\
  run Posix no_faults 2 0 ∅ = (Ok tt, snd (run Posix no_faults 2 0 ∅)) /\
  columns 0 = [] /\
  (forall r, row 0 r = []) /\
  exists text,
    fs (snd (run Posix no_faults 2 0 ∅)) !! output_file 2 = Some text /\
    splitlines text = repeat EmptyString (S (Z.to_nat 2)).
Proof.
  split; [lia|]. split; [vm_compute; reflexivity|].
  apply (nonpositive_cols_empty_lines Posix no_faults 2 0 ∅);
    [lia | vm_compute; reflexivity].
Defined.

(** X7: the file names never collide: different row counts give different
    output files and different marker files, and no marker file is the
    output file of any row count. *)
Theorem output_paths_distinct (R1 R2 : Z) :
  (output_file R1 = output_file R2 <-> R1 = R2) /\
  (done_file R1 = done_file R2 <-> R1 = R2) /\
  done_file R1 <> output_file R2.
Proof.
  split; [|split].
  - split; [apply output_file_inj | now intros ->].
  - split; [|now intros ->]. unfold done_file. intros H.
    now apply append_inv_tail, output_file_inj in H.
  - apply done_file_not_output_file.
Qed.

(** X8: the column labels of the header are pairwise distinct. *)
Theorem header_labels_distinct (os : platform) (faults : nat -> bool)
    (R C : Z) (disk : gmap string string) (w' : world) :
  run os faults R C disk = (Ok tt, w') ->
  exists text header rows,
    fs w' !! output_file R = Some text /\
    splitlines text = header :: rows /\
    List.NoDup (fields header).
Proof.
  intros E. apply run_ok_output in E. destruct E as [Hout _].
  exists (csv_text R C), (Csv.join_row (columns C)),
    (map (fun r => Csv.join_row (row C r)) (py_range 1 (R + 1))).
  split; [exact Hout|]. split; [apply splitlines_csv_text|].
  rewrite fields_join_row by apply columns_plain. apply columns_NoDup.
Qed.

Lemma header_labels_distinct_witness :
  run Posix no_faults 1 3 ∅ = (Ok tt, snd (run Posix no_faults 1 3 ∅)) /\
  exists text header rows,
    fs (snd (run Posix no_faults 1 3 ∅)) !! output_file 1 = Some text /\
    splitlines text = header :: rows /\
    List.NoDup (fields header).
Proof.
  split; [vm_compute; reflexivity|].
  apply (header_labels_distinct Posix no_faults 1 3 ∅).
  vm_compute; reflexivity.
Defined.

(** X9: a cell tells its position: two cells of the output file with the
    same text are at the same row and the same column. *)
Theorem output_cells_identify_position (os : platform)
    (faults : nat -> bool) (R C : Z) (disk : gmap string string)
    (w' : world) :
  run os faults R C disk = (Ok tt, w') ->
  exists text,
    fs w' !! output_file R = Some text /\
    forall r c r' c',
      1 <= r <= R -> 1 <= c <= C -> 1 <= r' <= R -> 1 <= c' <= C ->
      nth (Z.to_nat (c - 1))
          (fields (nth (Z.to_nat r) (splitlines text) EmptyString))
          EmptyString
      = nth (Z.to_nat (c' - 1))
            (fields (nth (Z.to_nat r') (splitlines text) EmptyString))
            EmptyString ->
      r = r' /\ c = c'.
Proof.
  intros E. apply run_ok_output in E. destruct E as [Hout _].
  exists (csv_text R C). split; [exact Hout|].
  intros r c r' c' Hr Hc Hr' Hc' H.
  rewrite !csv_text_cell in H by assumption.
  apply cell_inj in H. tauto.
Qed.

Lemma output_cells_identify_position_witness :
  run Posix no_faults 2 2 ∅ = (Ok tt, snd (run Posix no_faults 2 2 ∅)) /\
  exists text,
    fs (snd (run Posix no_faults 2 2 ∅)) !! output_file 2 = Some text /\
    forall r c r' c',
      1 <= r <= 2 -> 1 <= c <= 2 -> 1 <= r' <= 2 -> 1 <= c' <= 2 ->
      nth (Z.to_nat (c - 1))
          (fields (nth (Z.to_nat r) (splitlines text) EmptyString))
          EmptyString
      = nth (Z.to_nat (c' - 1))
            (fields (nth (Z.to_nat r') (splitlines text) EmptyString))
            EmptyString ->
      r = r' /\ c = c'.
Proof.
  split; [vm_compute; reflexivity|].
  apply (output_cells_identify_position Posix no_faults 2 2 ∅).
  vm_compute; reflexivity.
Defined.

(** X10: the standard output of a run, started with nothing printed, is
    either empty or the one line of the success message; it is that line
    after every run that returns normally, and it is empty whenever the
    writing of the output file raised. *)
Theorem stdout_is_the_message_or_empty (os : platform)
    (faults : nat -> bool) (R C : Z) (disk : gmap string string) :
  (stdout (snd (run os faults R C disk)) = EmptyString \/
   stdout (snd (run os faults R C disk))
     = success_message R C +:+ linesep os) /\
  (fst (run os faults R C disk) = Ok tt ->
   stdout (snd (run os faults R C disk))
     = success_message R C +:+ linesep os) /\
  (fst (generate_csv os faults R C (init_world disk)) = Raise ->
   stdout (snd (run os faults R C disk)) = EmptyString) /\
  splitlines (success_message R C +:+ linesep os) = [success_message R C].
Proof.
  unfold run.
  destruct (main_effects os faults R C (init_world disk))
    as (_ & Hor & Hok & Hraise).
  cbn [init_world stdout] in Hor, Hok, Hraise.
  repeat split; try assumption.
  apply splitlines_one_line; apply success_message_no_newline; auto.
Qed.

(** X11: once the block that writes the output file has returned, the file
    is complete and stays so: a failure of the print or of the marker file
    leaves the whole CSV text in place. *)
Theorem output_complete_once_written (os : platform) (faults : nat -> bool)
    (R C : Z) (disk : gmap string string) :
  fst (generate_csv os faults R C (init_world disk)) = Ok tt ->
  exists text,
    fs (snd (run os faults R C disk)) !! output_file R = Some text /\
    map fields (splitlines text)
    = columns C :: map (row C) (py_range 1 (R + 1)).
Proof.
  intros H.
  destruct (generate_csv os faults R C (init_world disk)) as [r w1] eqn:E.
  cbn [fst] in H. subst r.
  pose proof (csv_ok_then os faults R C _ _ E) as Hthen. cbn zeta in Hthen.
  destruct Hthen as (_ & _ & _ & Hout & _).
  exists (csv_text R C). split; [exact Hout|].
  rewrite splitlines_csv_text. apply fields_csv_records.
Qed.

Lemma output_complete_once_written_witness :
  fst (generate_csv Posix (fault_at 4) 1 2 (init_world ∅)) = Ok tt /\
  fst (run Posix (fault_at 4) 1 2 ∅) = Raise /\
  exists text,
    fs (snd (run Posix (fault_at 4) 1 2 ∅)) !! output_file 1 = Some text /\
    map fields (splitlines text)
    = columns 2 :: map (row 2) (py_range 1 (1 + 1)).
Proof.
  split; [vm_compute; reflexivity|]. split; [vm_compute; reflexivity|].
  apply (output_complete_once_written Posix (fault_at 4) 1 2 ∅).
  vm_compute; reflexivity.
Defined.
